(** * Daily-brief scheduler: dedup guard, schedule synchronizer,
      trigger converter and generation coordinator

    A shallow embedding of [src/scheduler.js],
    [src/handlers/supabase-helper.js] and the [DailyBriefGenerator] class
    (daily-brief-generator.js), together with the properties the
    specification states about them.

    Conventions.
    - Instants are [Z] milliseconds since the Unix epoch, as [Date.now()]
      returns them.
    - A nullable text column of the database is an [option string]; the
      JavaScript truthiness test [!x] is [truthy].
    - Code that suspends at an [await] is cut into the synchronous pieces
      between two suspension points; each piece is a function on the
      shared state, so that interleavings of two calls can be replayed. *)

From Stdlib Require Import ZArith List String Ascii Bool Lia DecimalString.
From stdpp Require Import gmap strings list fin_maps.
From Stdlib Require Import Sorted.

Open Scope string_scope.
Open Scope Z_scope.

#[local] Set Warnings "-clear-no-such-hyp".

(** ** Shared helpers *)

Definition MS_PER_SECOND : Z := 1000.
Definition MS_PER_MINUTE : Z := 60000.
Definition MS_PER_HOUR : Z := 3600000.
Definition MS_PER_DAY : Z := 86400000.

(** JavaScript truthiness of a nullable string: [null], [undefined] and the
    empty string are falsy. *)
Definition truthy (v : option string) : bool :=
  match v with
  | Some s => negb (String.eqb s "")
  | None => false
  end.

(** ** The delivery-history store ([brief_usage]) and the dedup guard *)

Module Store.

Inductive Status := success | failed | skipped.

(** One row of [brief_usage], as [logBriefSent] inserts it. *)
Record UsageRow := mkRow {
  row_user_id : string;
  last_used : Z;
  status : Status;
  error_message : option string
}.

Definition Status_eqb (a b : Status) : bool :=
  match a, b with
  | success, success | failed, failed | skipped, skipped => true
  | _, _ => false
  end.

(** [moment().utc().startOf("day")] *)
Definition startOfUtcDay (now : Z) : Z := (now / MS_PER_DAY) * MS_PER_DAY.

(** [.eq("user_id", userId).gte("last_used", since)] *)
Definition rowsSince (table : list UsageRow) (userId : string) (since : Z)
  : list UsageRow :=
  List.filter
    (fun r => String.eqb (row_user_id r) userId && (since <=? last_used r))
    table.

(** The query modifier [.single()] of the database client: the row when
    the result holds exactly one row, otherwise an error and no data. *)
Definition single {A} (rows : list A) : option A :=
  match rows with
  | [r] => Some r
  | _ => None
  end.

(** [.limit(1).maybeSingle()]: the first row when there is one. *)
Definition limit1_maybeSingle {A} (rows : list A) : option A :=
  match rows with
  | r :: _ => Some r
  | [] => None
  end.

(** [!!data] on a row object or [null]. *)
Definition notnot {A} (data : option A) : bool :=
  match data with Some _ => true | None => false end.

(** The two checks of the guard.  [answered] is false when the query
    comes back with an error, which leaves [data] null: neither
    function looks at [error] before it returns [!!data]. *)
Definition checkIfAlreadySent (answered : bool) (table : list UsageRow)
    (now : Z) (userId : string) : bool :=
  let today := startOfUtcDay now in
  let data :=
    if answered then single (rowsSince table userId today) else None in
  notnot data.

Definition checkIfSentRecently (answered : bool) (table : list UsageRow)
    (now : Z) (userId : string) (windowSeconds : Z) : bool :=
  let since := now - windowSeconds * MS_PER_SECOND in
  let data :=
    if answered then limit1_maybeSingle (rowsSince table userId since)
    else None in
  notnot data.

(** The row [logBriefSent] sends: [error_message] only when truthy. *)
Definition insertData (now : Z) (userId : string) (st : Status)
    (errorMessage : option string) : UsageRow :=
  mkRow userId now st (if truthy errorMessage then errorMessage else None).

(** [logBriefSent]: one row is appended when the database accepts the
    insert; when it answers an error, that is written to the console
    and the table stays as it is. *)
Definition logBriefSent (inserted : bool) (table : list UsageRow) (now : Z)
    (userId : string) (st : Status) (errorMessage : option string)
  : list UsageRow :=
  if inserted
  then (table ++ [insertData now userId st errorMessage])%list
  else table.

End Store.

(** ** Registry entries ([user_preferences]) *)

Record User := mkUser {
  user_id : option string;
  timezone : option string;
  user_email : option string;
  delivery_time : option string;
  slack_user_id : option string
}.

(** The text of a column inside a template literal or as a map key. *)
Definition text (v : option string) : string :=
  match v with Some s => s | None => "undefined" end.

(** ** The firing callback of [createUserCronJob] *)

Module Firing.
Import Store.

(** What a firing can touch: the clock, the history table and the
    delivery transport.  [calls] lists the invocations of
    [sendBriefViaWebhook] as (slack_user_id, user_email). *)
Record World := mkWorld {
  now : Z;
  brief_usage : list UsageRow;
  calls : list (string * string)
}.

Definition COOLDOWN_SECONDS : Z := 3000.

(** The guard as the callback evaluates it: [alreadySent ||
    sentRecently], here with both queries answered at the instant
    [now w]. *)
Definition guardHit (user : User) (w : World) : bool :=
  let uid := text (user_id user) in
  checkIfAlreadySent true (brief_usage w) (now w) uid
  || checkIfSentRecently true (brief_usage w) (now w) uid
       COOLDOWN_SECONDS.

(** The branch of the callback behind the guard: the skip for a missing
    recipient id, or the delivery and its log row, here with the insert
    accepted.  [sendResult] is the boolean [sendBriefViaWebhook]
    resolves to (it catches its own errors). *)
Definition deliverAndLog (user : User) (sendResult : bool) (w : World)
  : World :=
  let uid := text (user_id user) in
  if negb (truthy (slack_user_id user)) then
    mkWorld (now w)
      (logBriefSent true (brief_usage w) (now w) uid skipped
         (Some "No slack_user_id configured"))
      (calls w)
  else
    let calls' :=
      (calls w ++
         [(text (slack_user_id user), text (user_email user))])%list in
    mkWorld (now w)
      (logBriefSent true (brief_usage w) (now w) uid
         (if sendResult then success else failed)
         (if sendResult then None else Some "Failed to send via webhook"))
      calls'.

(** The callback handed to [cron.schedule] in the run in which nothing
    happens between its pieces, the queries are answered and the insert
    is accepted: one reading of the clock and of the table serves the
    guard and the log.  The callback in general is [callback] below. *)
Definition fire (user : User) (sendResult : bool) (w : World) : World :=
  let uid := text (user_id user) in
  let alreadySent :=
    checkIfAlreadySent true (brief_usage w) (now w) uid in
  let sentRecently :=
    checkIfSentRecently true (brief_usage w) (now w) uid
      COOLDOWN_SECONDS in
  if negb alreadySent && negb sentRecently
  then deliverAndLog user sendResult w
  else w.

(** The same world at another reading of the clock. *)
Definition atTime (t : Z) (w : World) : World :=
  mkWorld t (brief_usage w) (calls w).

(** A [success] row for the user written since the start of the current
    UTC day. *)
Definition hasSuccessToday (w : World) (uid : string) : bool :=
  existsb (fun r => Status_eqb (status r) success)
    (rowsSince (brief_usage w) uid (startOfUtcDay (now w))).

(** *** The callback as a function of what its awaits give

    The callback suspends at the two queries of the guard, at the
    delivery and at the insert of the log row; meanwhile the clock
    advances and other firings run.  A [Run] is what one firing meets:
    for each query of the guard the clock at its call, the table it
    reads and whether it is answered (an error leaves [data] null, so
    that the check answers false); what the delivery resolves to; the
    clock at the call of [logBriefSent], which is the stamp of the row,
    and whether the database accepts the insert ([logBriefSent] writes
    an error to the console and goes on).  The helpers return their
    errors, so that the [catch] of the callback is not reached.  The
    user is one with a user id, as the loop of the cycle requires of
    every user it creates a trigger for: [text (user_id user)] is that
    id. *)
Record Run := mkRun {
  dailyCalledAt : Z;
  dailyTable : list UsageRow;
  dailyAnswered : bool;
  recentCalledAt : Z;
  recentTable : list UsageRow;
  recentAnswered : bool;
  sendOutcome : bool;
  logCalledAt : Z;
  inserted : bool
}.

(** What a firing does: the call of [sendBriefViaWebhook], if any, as
    (slack_user_id, user_email), and the row written, if any. *)
Record Effects := mkEffects {
  delivery : option (string * string);
  logged : option UsageRow
}.

(** [alreadySent || sentRecently] as this run evaluates it. *)
Definition blocked (user : User) (r : Run) : bool :=
  let uid := text (user_id user) in
  checkIfAlreadySent (dailyAnswered r) (dailyTable r) (dailyCalledAt r) uid
  || checkIfSentRecently (recentAnswered r) (recentTable r)
       (recentCalledAt r) uid COOLDOWN_SECONDS.

(** The row that [logBriefSent] adds in this run, if the insert is
    accepted. *)
Definition insertLog (r : Run) (uid : string) (st : Status)
    (errorMessage : option string) : option UsageRow :=
  if inserted r
  then Some (insertData (logCalledAt r) uid st errorMessage)
  else None.

Definition callback (user : User) (r : Run) : Effects :=
  let uid := text (user_id user) in
  if blocked user r then mkEffects None None
  else if negb (truthy (slack_user_id user)) then
    mkEffects None
      (insertLog r uid skipped (Some "No slack_user_id configured"))
  else
    mkEffects
      (Some (text (slack_user_id user), text (user_email user)))
      (insertLog r uid
         (if sendOutcome r then success else failed)
         (if sendOutcome r then None else Some "Failed to send via webhook")).

(** The effects of a firing, put into the world. *)
Definition record (e : Effects) (w : World) : World :=
  mkWorld (now w)
    (brief_usage w ++ option_list (logged e))%list
    (calls w ++ option_list (delivery e))%list.

(** The run that [fire] stands for: nothing happens between the pieces,
    every query is answered and the insert is accepted. *)
Definition uninterrupted (sendResult : bool) (w : World) : Run :=
  mkRun (now w) (brief_usage w) true (now w) (brief_usage w) true
    sendResult (now w) true.

End Firing.

(** ** The time library: zones, parsing of local times, number rendering

    [convertToCronTime] is a composition of calls into moment-timezone.
    The pieces it uses are written out here after the library's own
    algorithms: a zone is the table of its periods, [utcOffset] scans the
    [untils], and [parse] is the library's search for the offset of a
    local wall-clock time (with its default [moveInvalidForward]). *)

Module Moment.

(** A zone: the finite periods as (until, offset), in order, and the
    offset of the last, unbounded period.  Offsets are minutes to add to
    local time to obtain UTC (300 for UTC-5), as the library stores
    them; [until] is the UTC instant at which the period ends. *)
Record Zone := mkZone {
  periods : list (Z * Z);
  lastOffset : Z
}.

Fixpoint offset_go (ps : list (Z * Z)) (last : Z) (timestamp : Z) : Z :=
  match ps with
  | [] => last
  | (until, offset) :: rest =>
      if timestamp <? until then offset else offset_go rest last timestamp
  end.

(** [Zone.utcOffset(timestamp)]: the offset in force at a UTC instant. *)
Definition utcOffset (z : Zone) (timestamp : Z) : Z :=
  offset_go (periods z) (lastOffset z) timestamp.

Fixpoint parse_go (offsetPrev : Z) (ps : list (Z * Z)) (last : Z)
    (target : Z) : Z :=
  match ps with
  | [] => last
  | (until, offset) :: rest =>
      let adjusted := if offsetPrev <? offset then offsetPrev else offset in
      if target <? until - adjusted * MS_PER_MINUTE then offset
      else parse_go offset rest last target
  end.

(** [Zone.parse(timestamp)]: the offset for a local time given as if it
    were UTC.  At the first period the previous offset is the period's
    own. *)
Definition parse (z : Zone) (target : Z) : Z :=
  match periods z with
  | [] => lastOffset z
  | (_, offset) :: _ => parse_go offset (periods z) (lastOffset z) target
  end.

(** The local wall-clock reading, as if UTC, of a UTC instant. *)
Definition toLocal (z : Zone) (timestamp : Z) : Z :=
  timestamp - utcOffset z timestamp * MS_PER_MINUTE.

(** *** Reading digits (the non-strict tokens [HH] and [mm]) *)

Definition digit (c : ascii) : option Z :=
  let n := Z.of_nat (nat_of_ascii c) in
  if (48 <=? n) && (n <=? 57) then Some (n - 48) else None.

(** First match of [/\d\d?/] anywhere in the input: the value and the
    input after the match. *)
Fixpoint match1to2 (s : string) : option (Z * string) :=
  match s with
  | EmptyString => None
  | String c rest =>
      match digit c with
      | Some d =>
          match rest with
          | String c2 rest2 =>
              match digit c2 with
              | Some d2 => Some (10 * d + d2, rest2)
              | None => Some (d, rest)
              end
          | EmptyString => Some (d, rest)
          end
      | None => match1to2 rest
      end
  end.

(** A literal token of the format: the input after its first occurrence,
    or [None] when it does not occur. *)
Fixpoint afterLiteral (lit : ascii) (s : string) : option string :=
  match s with
  | EmptyString => None
  | String c rest =>
      if Ascii.eqb c lit then Some rest else afterLiteral lit rest
  end.

(** The tokens [HH], [:] and [mm] of the format ["YYYY-MM-DD HH:mm"] on
    what follows the date: a token that finds no match leaves the input
    alone and its field at 0; then the overflow check, which refuses an
    hour above 24, 24 with minutes, and a minute above 59.  The result
    is the time of day in milliseconds, or [None] for an invalid
    moment. *)
Definition parseHHmm (s : string) : option Z :=
  let '(hour, s1) :=
    match match1to2 s with Some (h, r) => (h, r) | None => (0, s) end in
  let s2 := match afterLiteral ":" s1 with Some r => r | None => s1 end in
  let minute :=
    match match1to2 s2 with Some (m, _) => m | None => 0 end in
  if (24 <? hour) || ((hour =? 24) && negb (minute =? 0)) || (59 <? minute)
  then None
  else Some (hour * MS_PER_HOUR + minute * MS_PER_MINUTE).

(** [String.prototype.split] with a one-character separator. *)
Fixpoint split (sep : ascii) (s : string) : list string :=
  match s with
  | EmptyString => [EmptyString]
  | String c rest =>
      if Ascii.eqb c sep then EmptyString :: split sep rest
      else match split sep rest with
           | h :: t => String c h :: t
           | [] => [String c EmptyString]
           end
  end.

(** A number inside a template literal, for the non-negative integers
    the getters return; the getters of an invalid moment give [NaN]. *)
Definition showNumber (v : option Z) : string :=
  match v with
  | Some n => NilZero.string_of_uint (N.to_uint (Z.to_N n))
  | None => "NaN"
  end.

(** [m.hours()] and [m.minutes()] of a moment in UTC mode. *)
Definition hours (m : option Z) : option Z :=
  option_map (fun ts => (ts / MS_PER_HOUR) mod 24) m.
Definition minutes (m : option Z) : option Z :=
  option_map (fun ts => (ts / MS_PER_MINUTE) mod 60) m.

(** A two-digit field, as a well-formed [HH:MM] preference has it. *)
Definition pad2 (n : Z) : string :=
  if n <? 10 then "0" +:+ showNumber (Some n) else showNumber (Some n).

Definition hhmm (h m : Z) : string := pad2 h +:+ ":" +:+ pad2 m.

End Moment.

(** ** The trigger converter *)

Module Converter.
Import Moment.

Section WithZoneData.

(** The zone table loaded into the library: [getZone(name)] is [None]
    for a name it has no data for. *)
Variable getZone : string -> option Zone.

(** [moment.tz(timezone)] read at [now], then [format("YYYY-MM-DD")].
    The calendar date is kept as its day number (days since the
    epoch); formatting a date and parsing it back at midnight is the
    identity on day numbers.  A zone without data leaves the moment in
    UTC. *)
Definition todayInUserTz (timezone : string) (now : Z) : Z :=
  match getZone timezone with
  | Some z => toLocal z now / MS_PER_DAY
  | None => now / MS_PER_DAY
  end.

(** [moment.tz(`${today} ${hours}:${minutes}`, "YYYY-MM-DD HH:mm",
    timezone)]: parse as if UTC, then add the zone's offset for that
    local time; without zone data nothing is added. *)
Definition momentTzParse (today : Z) (hoursText minutesText : string)
    (timezone : string) : option Z :=
  match parseHHmm (hoursText +:+ ":" +:+ minutesText) with
  | None => None
  | Some timeOfDay =>
      let out := today * MS_PER_DAY + timeOfDay in
      match getZone timezone with
      | Some z => Some (out + parse z out * MS_PER_MINUTE)
      | None => Some out
      end
  end.

(** [userTime.utc()] of [convertToCronTime]: the instant the cron
    fields are read from. *)
Definition utcTime (timePreference timezone : string) (now : Z)
  : option Z :=
  let parts := split ":" timePreference in
  let hoursText := nth 0 parts "undefined" in
  let minutesText := nth 1 parts "undefined" in
  momentTzParse (todayInUserTz timezone now) hoursText minutesText
    timezone.

Definition convertToCronTime (timePreference timezone : string)
    (now : Z) : string :=
  let t := utcTime timePreference timezone now in
  showNumber (minutes t) +:+ " " +:+ showNumber (hours t) +:+ " * * *".

End WithZoneData.

(** *** Zone data used in the scenarios

    An excerpt of the IANA rules for New York around 2024: daylight time
    (UTC-4, offset 240) from 2024-03-10 07:00 UTC to 2024-11-03 06:00
    UTC, standard time (UTC-5, offset 300) around it. *)
Definition America_New_York : Zone :=
  mkZone
    [ (1699164000000, 240);   (* until 2023-11-05 06:00 UTC *)
      (1710054000000, 300);   (* until 2024-03-10 07:00 UTC *)
      (1730613600000, 240);   (* until 2024-11-03 06:00 UTC *)
      (1741503600000, 300);   (* until 2025-03-09 07:00 UTC *)
      (1762063200000, 240) ]  (* until 2025-11-02 06:00 UTC *)
    300.

Definition UTC : Zone := mkZone [] 0.

Definition zoneData (name : string) : option Zone :=
  if String.eqb name "America/New_York" then Some America_New_York
  else if String.eqb name "UTC" then Some UTC
  else None.

(** The offset of the period that follows. *)
Definition nextOffset (ps : list (Z * Z)) (last : Z) : Z :=
  match ps with
  | [] => last
  | (_, o) :: _ => o
  end.

Definition inSpread (lo sp o : Z) : bool := (lo <=? o) && (o <=? lo + sp).

(** A zone is regular for a lower bound [lo] and a spread [sp] of its
    offsets when every offset lies in [lo .. lo + sp], every period but
    the first is at least [sp] minutes long, and an offset that rose at
    the start of a period falls back at its end at least to where it rose
    from (the alternation of standard and daylight time). *)
Fixpoint regular_from (lo sp : Z) (offsetPrev untilPrev : Z)
    (ps : list (Z * Z)) (last : Z) : bool :=
  match ps with
  | [] => inSpread lo sp last
  | (until, offset) :: rest =>
      (untilPrev + sp * MS_PER_MINUTE <=? until)
      && inSpread lo sp offset
      && (negb (offsetPrev <? offset)
          || (nextOffset rest last <=? offsetPrev))
      && regular_from lo sp offset until rest last
  end.

Definition regular (lo sp : Z) (z : Zone) : bool :=
  match periods z with
  | [] => true
  | (until, offset) :: rest =>
      inSpread lo sp offset
      && regular_from lo sp offset until rest (lastOffset z)
  end.

(** The periods that lie behind a local time: each has an offset of at
    least [floor] and has ended before the local time, even when that
    is read with [floor]. *)
Definition behind (floor target : Z) (ps : list (Z * Z)) : Prop :=
  Forall
    (fun p => floor <= p.2 /\ p.1 - floor * MS_PER_MINUTE <= target) ps.

(** A zone is regular around a local time when its whole table is
    regular, or when the table is regular from some period on and the
    periods up to that one lie behind the local time: what the table
    holds about a distant past does not matter. *)
Definition regularAround (lo sp : Z) (z : Zone) (target : Z) : Prop :=
  regular lo sp z = true
  \/ exists floor old untilPrev offsetPrev recent,
       periods z = (old ++ (untilPrev, offsetPrev) :: recent)%list
       /\ floor <= lo
       /\ behind floor target (old ++ [(untilPrev, offsetPrev)])
       /\ inSpread lo sp offsetPrev = true
       /\ regular_from lo sp offsetPrev untilPrev recent (lastOffset z)
          = true.

(** The text of a daily cron expression, and the instant at which it
    fires on a given UTC day. *)
Definition cronText (minute hour : Z) : string :=
  showNumber (Some minute) +:+ " " +:+ showNumber (Some hour) +:+ " * * *".

Definition cronInstant (day hour minute : Z) : Z :=
  day * MS_PER_DAY + hour * MS_PER_HOUR + minute * MS_PER_MINUTE.

(** The calendar day and the (hour, minute) a zone shows at an
    instant. *)
Definition localDay (z : Zone) (timestamp : Z) : Z :=
  toLocal z timestamp / MS_PER_DAY.

Definition localClock (z : Zone) (timestamp : Z) : Z * Z :=
  ((toLocal z timestamp / MS_PER_HOUR) mod 24,
   (toLocal z timestamp / MS_PER_MINUTE) mod 60).

(** A local wall-clock reading exists in a zone when some UTC instant
    shows it. *)
Definition localExists (z : Zone) (target : Z) : Prop :=
  exists u, toLocal z u = target.

End Converter.

(** ** The cron library: validation of an expression

    [cron.schedule] validates its expression and throws on a field it
    cannot read.  The validation is written for the expressions
    [convertToCronTime] can produce: five fields separated by one space,
    each a decimal number in the range of its position, or [*]. *)

Module Cron.
Import Moment.

Fixpoint parseDigits (acc : Z) (s : string) : option Z :=
  match s with
  | EmptyString => Some acc
  | String c rest =>
      match digit c with
      | Some d => parseDigits (10 * acc + d) rest
      | None => None
      end
  end.

Definition parseNumber (s : string) : option Z :=
  match s with
  | EmptyString => None
  | _ => parseDigits 0 s
  end.

Definition validField (lo hi : Z) (field : string) : bool :=
  if String.eqb field "*" then true
  else match parseNumber field with
       | Some n => (lo <=? n) && (n <=? hi)
       | None => false
       end.

Definition validate (expression : string) : bool :=
  match split " " expression with
  | [minute; hour; dayOfMonth; month; dayOfWeek] =>
      validField 0 59 minute && validField 0 23 hour
      && validField 1 31 dayOfMonth && validField 1 12 month
      && validField 0 7 dayOfWeek
  | _ => false
  end.

End Cron.

(** ** The schedule synchronizer *)

Module Scheduler.
Import Moment Converter.

(** A task object returned by [cron.schedule]. *)
Record Task := mkTask {
  task_user : User;
  cronExpression : string;
  running : bool
}.

Definition start (t : Task) : Task :=
  mkTask (task_user t) (cronExpression t) true.
Definition stop (t : Task) : Task :=
  mkTask (task_user t) (cronExpression t) false.

(** The module state of scheduler.js.  [tasks] holds every task object
    created so far, a handle being its position: a started task keeps
    firing whether or not the map still refers to it.  [activeTasks] is
    the [Map] from user id to task; [syncInProgress] is the module's
    flag. *)
Record State := mkState {
  tasks : list Task;
  activeTasks : gmap string nat;
  syncInProgress : bool
}.

Definition initial : State := mkState [] ∅ false.

(** The outcome of the query of [getActiveUsers]: the awaited call
    rejects, or it answers [{ data, error }] with an error or with
    data. *)
Inductive Response :=
| QueryRejected
| QueryError
| QueryData (data : option (list User)).

Definition fetchFailed (r : Response) : bool :=
  match r with
  | QueryData _ => false
  | _ => true
  end.

(** [getActiveUsers]: [None] when the awaited query rejects, which the
    function does not catch. *)
Definition getActiveUsers (r : Response) : option (list User) :=
  match r with
  | QueryRejected => None
  | QueryError => Some []
  | QueryData None => Some []
  | QueryData (Some data) =>
      match data with
      | [] => Some []
      | _ => Some (List.filter (fun user => truthy (slack_user_id user)) data)
      end
  end.

Section WithZoneData.
Variable getZone : string -> option Zone.

(** [createUserCronJob]: [None] when the call throws, which it does in
    two places: [convertToCronTime] at [timePreference.split] for a
    [delivery_time] of [null], and [cron.schedule] for an expression it
    cannot read.  The task is created with [scheduled: false]. *)
Definition createUserCronJob (user : User) (now : Z) : option Task :=
  match delivery_time user with
  | None => None
  | Some timePreference =>
      let cronExpression :=
        convertToCronTime getZone timePreference (text (timezone user))
          now in
      if Cron.validate cronExpression
      then Some (mkTask user cronExpression false)
      else None
  end.

(** First piece of [syncAllSchedules], up to [await getActiveUsers()]:
    stop every task of the map, then clear the map. *)
Definition stopHandles (handles : list nat) (ts : list Task)
  : list Task :=
  foldr (fun h acc => alter stop h acc) ts handles.

Definition syncBegin (s : State) : State :=
  mkState
    (stopHandles (map_to_list (activeTasks s)).*2 (tasks s))
    ∅
    (syncInProgress s).

(** One turn of the loop over the users: the validation of the
    required fields, then the [try] around creation, start and
    registration; a throw is caught and the loop goes on. *)
Definition scheduleUser (now : Z) (s : State) (user : User) : State :=
  if negb (truthy (user_id user))
     || negb (truthy (delivery_time user))
     || negb (truthy (timezone user))
  then s
  else
    match createUserCronJob user now with
    | None => s
    | Some task =>
        mkState
          (tasks s ++ [start task])%list
          (<[text (user_id user) := length (tasks s)]> (activeTasks s))
          (syncInProgress s)
    end.

(** Second piece, resumed with the users fetched. *)
Definition syncResume (now : Z) (users : list User) (s : State) : State :=
  foldl (scheduleUser now) s users.

(** A whole cycle that nothing interleaves with.  A rejection of the
    fetch is caught by the outer [try] after the map was cleared. *)
Definition syncAllSchedules (now : Z) (r : Response) (s : State)
  : State :=
  let cleared := syncBegin s in
  match getActiveUsers r with
  | Some users => syncResume now users cleared
  | None => cleared
  end.

(** The second piece as the cycle runs it when its fetch has returned,
    on the state it finds then: the loop over the users fetched, or
    nothing when the fetch rejected. *)
Definition syncAfterFetch (now : Z) (r : Response) (s : State) : State :=
  match getActiveUsers r with
  | Some users => syncResume now users s
  | None => s
  end.

(** A piece of some cycle.  While a cycle is suspended at its fetch, the
    pieces of other cycles (the hourly timer, [POST /sync], a change of
    the preferences) may run. *)
Inductive Piece :=
| Begins
| Resumes (now : Z) (r : Response).

Definition runPiece (s : State) (p : Piece) : State :=
  match p with
  | Begins => syncBegin s
  | Resumes now r => syncAfterFetch now r s
  end.

(** The state in which a cycle that began in [s] finds the module when
    its fetch returns, [others] being the pieces that ran meanwhile, and
    the state it leaves behind. *)
Definition atFetchReturn (others : list Piece) (s : State) : State :=
  foldl runPiece (syncBegin s) others.

Definition interleaved (others : list Piece) (now : Z) (r : Response)
    (s : State) : State :=
  syncAfterFetch now r (atFetchReturn others s).

(** Whether the loop body installs a trigger for a fetched user. *)
Definition schedulable (now : Z) (user : User) : bool :=
  truthy (user_id user) && truthy (delivery_time user)
  && truthy (timezone user)
  && match createUserCronJob user now with
     | Some _ => true
     | None => false
     end.

(** The registry entries the specification expects a trigger for. *)
Definition hasAllFields (user : User) : bool :=
  truthy (user_id user) && truthy (delivery_time user)
  && truthy (timezone user) && truthy (slack_user_id user).

(** The entries the loop installs a trigger for. *)
Definition installable (now : Z) (user : User) : bool :=
  hasAllFields user
  && match createUserCronJob user now with
     | Some _ => true
     | None => false
     end.

End WithZoneData.

(** The handles of the running tasks that fire for a user id. *)
Definition runningFor (s : State) (uid : string) : list nat :=
  List.filter
    (fun h =>
       match tasks s !! h with
       | Some t => running t && String.eqb (text (user_id (task_user t))) uid
       | None => false
       end)
    (seq 0 (length (tasks s))).

End Scheduler.

(** ** The generation coordinator ([DailyBriefGenerator]) *)

Module Generator.

(** An entry of the cache.  The entry is stamped with a luxon
    [DateTime]; the cache tests subtract it from a number, which reads
    its instant, or [NaN] when the [DateTime] is invalid: [timestamp]
    is that value, [None] standing for [NaN]. *)
Record CachedBrief := mkCached {
  brief : string;
  timestamp : option Z
}.

(** The two maps of the instance.  [generations] lists, by cache key,
    the invocations of [generateBriefContent]; the promise an invocation
    returns is named by its position. *)
Record State := mkState {
  briefCache : gmap string CachedBrief;
  inFlight : gmap string nat;
  generations : list string
}.

Definition initial : State := mkState ∅ ∅ [].

Definition CACHE_DURATION : Z := 30000.

Definition cacheKey (userEmail : string) (userId : option string)
  : string :=
  userEmail +:+ ":" +:+ (if truthy userId then text userId else "unknown").

(** [now - cachedData.timestamp < this.CACHE_DURATION] and
    [now - data.timestamp > this.CACHE_DURATION]: a comparison with
    [NaN] is false. *)
Definition fresh (now : Z) (stamp : option Z) : bool :=
  match stamp with
  | Some t => now - t <? CACHE_DURATION
  | None => false
  end.

Definition expired (now : Z) (stamp : option Z) : bool :=
  match stamp with
  | Some t => CACHE_DURATION <? now - t
  | None => false
  end.

(** Where a call of [generateDailyBrief] stands: returned, or suspended
    at one of its three [await]s. *)
Inductive Pending :=
| Returns (content : string)
| AwaitsInFlight (key : string) (promise : nat)
| AwaitsPreferences (key : string)
| AwaitsGeneration (key : string) (promise : nat) (startedAt : option Z).

Inductive Settled :=
| Resolved (content : string)
| Rejected (message : string).

(** From the entry of [generateDailyBrief] to its first suspension: the
    cache test, then the in-flight test. *)
Definition enter (now : Z) (userEmail : string) (userId : option string)
    (s : State) : State * Pending :=
  let key := cacheKey userEmail userId in
  match briefCache s !! key with
  | Some cachedData =>
      if fresh now (timestamp cachedData)
      then (s, Returns (brief cachedData))
      else
        let s' :=
          mkState (delete key (briefCache s)) (inFlight s) (generations s) in
        match inFlight s !! key with
        | Some promise => (s', AwaitsInFlight key promise)
        | None => (s', AwaitsPreferences key)
        end
  | None =>
      match inFlight s !! key with
      | Some promise => (s, AwaitsInFlight key promise)
      | None => (s, AwaitsPreferences key)
      end
  end.

(** Resumed from [await this.inFlight.get(cacheKey)]: the value is
    returned; a rejection is swallowed and the call goes on to the
    generation block, whose first suspension is the preference
    lookup. *)
Definition afterInFlight (key : string) (r : Settled) (s : State)
  : State * Pending :=
  match r with
  | Resolved content => (s, Returns content)
  | Rejected _ => (s, AwaitsPreferences key)
  end.

(** [userPreferences.timezone || "America/New_York"]; the preferences
    are [null] when none were found or the lookup threw. *)
Definition userTimezone (userPreferences : option User) : string :=
  match userPreferences with
  | Some preferences =>
      if truthy (timezone preferences) then text (timezone preferences)
      else "America/New_York"
  | None => "America/New_York"
  end.

(** The value of [DateTime.now().setZone(userTimezone)] read at [now]:
    the instant, or [NaN] when the date library does not accept the
    zone name ([isValidZone] is its test, which asks the runtime's
    [Intl] data, not the zone table of the scheduler). *)
Definition stampAt (isValidZone : string -> bool) (now : Z)
    (zone : string) : option Z :=
  if isValidZone zone then Some now else None.

(** Resumed from [await getUserPreferences(...)] with what it gave: the
    stamp is taken, [generateBriefContent] is invoked, its promise is
    put in [inFlight], and the call suspends on it. *)
Definition afterPreferences (isValidZone : string -> bool) (now : Z)
    (userPreferences : option User) (key : string) (s : State)
  : State * Pending :=
  let promise := length (generations s) in
  (mkState (briefCache s) (<[key := promise]> (inFlight s))
     (generations s ++ [key])%list,
   AwaitsGeneration key promise
     (stampAt isValidZone now (userTimezone userPreferences))).

Definition cleanupCache (now : Z) (cache : gmap string CachedBrief)
  : gmap string CachedBrief :=
  filter (fun kv => Is_true (negb (expired now (timestamp kv.2)))) cache.

(** Resumed from [await generationPromise]: cache and clean up, or the
    apology of the [catch]; the [finally] removes the in-flight entry
    of the key either way. *)
Definition afterGeneration (now : Z) (key : string)
    (startedAt : option Z) (r : Settled) (s : State) : State * Pending :=
  match r with
  | Resolved dailyBrief =>
      (mkState
         (cleanupCache now
            (<[key := mkCached dailyBrief startedAt]> (briefCache s)))
         (delete key (inFlight s))
         (generations s),
       Returns dailyBrief)
  | Rejected message =>
      (mkState (briefCache s) (delete key (inFlight s)) (generations s),
       Returns
         ("❌ Sorry, I couldn't generate your daily brief. " +:+ message))
  end.

End Generator.

(** ** The retry helper ([retryOperation]) *)

Module Retry.

(** What one invocation of the wrapped operation does. *)
Inductive Attempt (A : Type) :=
| Succeeds (result : A)
| Fails (message : string).
Arguments Succeeds {A} result.
Arguments Fails {A} message.

(** What the helper does, in order: invoke the operation for the n-th
    time, or sleep. *)
Inductive Event :=
| Invoke (attempt : nat)
| Delay (ms : Z).

Inductive Outcome (A : Type) :=
| Returned (result : A)
| ReturnedEmpty
| Thrown (message : string)
| ReturnedUndefined.
Arguments Returned {A} result.
Arguments ReturnedEmpty {A}.
Arguments Thrown {A} message.
Arguments ReturnedUndefined {A}.

Section Loop.
Context {A : Type}.
Variable operation : nat -> Attempt A.
Variable throwOnFailure : bool.
Variable maxRetries : nat.
Variable baseDelay : Z.

(** The [for] loop from a given value of [attempt].  [fuel] bounds the
    number of turns; [None] means the bound was too small. *)
Fixpoint retryLoop (fuel : nat) (attempt : nat)
  : option (list Event * Outcome A) :=
  if (attempt <=? maxRetries)%nat then
    match fuel with
    | O => None
    | S fuel' =>
        match operation attempt with
        | Succeeds result => Some ([Invoke attempt], Returned result)
        | Fails message =>
            if (attempt =? maxRetries)%nat then
              Some ([Invoke attempt],
                    if throwOnFailure then Thrown message
                    else ReturnedEmpty)
            else
              let delay := baseDelay * 2 ^ (Z.of_nat attempt - 1) in
              match retryLoop fuel' (S attempt) with
              | Some (events, out) =>
                  Some (Invoke attempt :: Delay delay :: events, out)
              | None => None
              end
        end
    end
  else Some ([], ReturnedUndefined).

Definition retryOperation : option (list Event * Outcome A) :=
  retryLoop maxRetries 1.

End Loop.

(** The defaults of the signature. *)
Definition DEFAULT_MAX_RETRIES : nat := 3.
Definition DEFAULT_BASE_DELAY : Z := 1000.

(** The delay event that immediately precedes the k-th invocation. *)
Fixpoint delayBefore (k : nat) (events : list Event) : option Z :=
  match events with
  | Delay ms :: ((Invoke j :: _) as rest) =>
      if (j =? k)%nat then Some ms else delayBefore k rest
  | _ :: rest => delayBefore k rest
  | [] => None
  end.

(** The trace of k invocations with the delays of the code between
    them: after the j-th failure, [baseDelay * 2^(j-1)]. *)
Definition backoffTrace (baseDelay : Z) (k : nat) : list Event :=
  Invoke 1 ::
  flat_map
    (fun j => [Delay (baseDelay * 2 ^ (Z.of_nat j - 2)); Invoke j])
    (seq 2 (k - 1)).

(** The same from the invocation numbered [a] on, without it. *)
Definition tailTrace (baseDelay : Z) (a k : nat) : list Event :=
  flat_map
    (fun j => [Delay (baseDelay * 2 ^ (Z.of_nat j - 2)); Invoke j])
    (seq (S a) (k - a)).

(** The final answer after a failure at the last attempt. *)
Definition giveUp {A} (throwOnFailure : bool) (message : string)
  : Outcome A :=
  if throwOnFailure then Thrown message else ReturnedEmpty.

End Retry.

(** ** Scenarios *)

Module Scenarios.
Import Store Firing.

(** Registry entries: a complete one; one whose delivery time has an
    hour out of range; one whose timezone the zone table lacks. *)
Definition alice : User :=
  mkUser (Some "U1") (Some "America/New_York") (Some "alice@example.com")
    (Some "08:00") (Some "S1").

Definition bob : User :=
  mkUser (Some "U2") (Some "UTC") (Some "bob@example.com")
    (Some "25:00") (Some "S2").

Definition carol : User :=
  mkUser (Some "U3") (Some "Mars/Phobos") (Some "carol@example.com")
    (Some "08:00") (Some "S3").

(** Instants: 2024-07-15 15:30 UTC (New York at UTC-4), 2024-01-15
    15:30 UTC (at UTC-5), and 2024-03-10 12:00 UTC, the day New York
    skips from 02:00 to 03:00. *)
Definition summer2024 : Z := 1721057400000.
Definition winter2024 : Z := 1705332600000.
Definition springForward2024 : Z := 1710072000000.

(** Histories at 09:00 UTC of 2024-07-15.  In the first, two firings of
    the same trigger overlapped shortly after midnight and each logged
    a [success] row; in the second there is one such row. *)
Definition twoRowsToday : World :=
  mkWorld 1721034000000
    [ mkRow "U1" 1721001900000 success None;
      mkRow "U1" 1721001900200 success None ]
    [].

Definition oneRowToday : World :=
  mkWorld 1721034000000 [ mkRow "U1" 1721001900000 success None ] [].

(** A zone whose offset rises from 240 to 300 and then settles at 270:
    the fall after the rise stops short of where the rise began. *)
Definition zigzag : Moment.Zone :=
  Moment.mkZone [ (0, 240); (86400000000, 300) ] 270.

(** After the rules of London for 1947 and 1948: summer time (UTC+1)
    from 1947-03-16, double summer time (UTC+2) from 1947-04-13 to
    1947-08-10, summer time again until 1947-11-02, and summer time
    from 1948-03-14 to 1948-10-31. *)
Definition Europe_London_1947 : Moment.Zone :=
  Moment.mkZone
    [ (-719445600000, 0);     (* until 1947-03-16 02:00 UTC *)
      (-717030000000, -60);   (* until 1947-04-13 01:00 UTC *)
      (-706748400000, -120);  (* until 1947-08-10 01:00 UTC *)
      (-699487200000, -60);   (* until 1947-11-02 02:00 UTC *)
      (-687996000000, 0);     (* until 1948-03-14 02:00 UTC *)
      (-668037600000, -60) ]  (* until 1948-10-31 02:00 UTC *)
    0.

(** The zone names the runtime's [Intl] data accepts, as far as the
    scenarios need them. *)
Definition intlZone (name : string) : bool :=
  existsb (String.eqb name)
    ["America/New_York"; "UTC"; "Europe/London"; "Europe/Paris";
     "Asia/Tokyo"].

(** An operation that fails at every invocation. *)
Definition alwaysFails : nat -> Retry.Attempt (list string) :=
  fun _ => Retry.Fails "timeout".

End Scenarios.

(** ** Further operations of scheduler.js *)

Module SchedulerOps.
Import Moment Converter Scheduler Firing.

(** [stopAllTasks]: stop every task of the map, then clear the map. *)
Definition stopAllTasks (s : State) : State :=
  mkState
    (stopHandles (map_to_list (activeTasks s)).*2 (tasks s))
    ∅
    (syncInProgress s).

(** [getSchedulerStatus().activeTasks], the size of the map. *)
Definition statusActiveTasks (s : State) : nat := size (activeTasks s).

(** Whether a handle is held by the map. *)
Definition mapped (s : State) (h : nat) : bool :=
  bool_decide (h ∈ (map_to_list (activeTasks s)).*2).

(** [users.find((u) => u.user_id === userId)] *)
Definition findUser (users : list User) (userId : string) : option User :=
  List.find
    (fun u =>
       match user_id u with
       | Some i => String.eqb i userId
       | None => false
       end)
    users.

(** [triggerTestBrief]: the boolean returned and the world afterwards.
    Every throw inside (rejected fetch, user not found, no recipient id)
    is caught and gives [false]. *)
Definition triggerTestBrief (r : Response) (userId : string)
    (sendResult : bool) (w : World) : bool * World :=
  match getActiveUsers r with
  | None => (false, w)
  | Some users =>
      match findUser users userId with
      | None => (false, w)
      | Some user =>
          if negb (truthy (slack_user_id user)) then (false, w)
          else
            (sendResult,
             mkWorld (now w) (brief_usage w)
               (calls w ++
                  [(text (slack_user_id user), text (user_email user))])%list)
      end
  end.

Section WithZoneData.
Variable getZone : string -> option Zone.

(** Every entry of the map refers to a running task that was created for
    that user id, with the expression converted at [now]. *)
Definition mapConsistent (now : Z) (s : State) : Prop :=
  forall uid h,
    activeTasks s !! uid = Some h ->
    exists t,
      tasks s !! h = Some t
      /\ running t = true
      /\ text (user_id (task_user t)) = uid
      /\ cronExpression t
         = convertToCronTime getZone (text (delivery_time (task_user t)))
             (text (timezone (task_user t))) now.

End WithZoneData.

(** No running task is missing from the map: a running task is the one
    the map holds for its user. *)
Definition noLeak (s : State) : Prop :=
  forall h t,
    tasks s !! h = Some t ->
    running t = true ->
    activeTasks s !! text (user_id (task_user t)) = Some h.

(** The state two interleaved cycles leave behind: two running tasks for
    one user, the map holding the second. *)
Definition leakedState : State :=
  syncResume zoneData Scenarios.summer2024 [Scenarios.alice]
    (syncResume zoneData Scenarios.summer2024 [Scenarios.alice]
       (syncBegin (syncBegin initial))).

End SchedulerOps.

(** ** The job queue ([brief_queue]) of supabase-helper.js *)

Module Queue.
Import Moment Converter.

Inductive JobStatus := pending | processing | completed | failed.

(** One row of [brief_queue]. *)
Record Job := mkJob {
  job_id : nat;
  job_user_id : option string;
  scheduled_at : Z;
  job_status : JobStatus;
  attempts : Z;
  last_error : option string
}.

Definition isPending (j : Job) : bool :=
  match job_status j with pending => true | _ => false end.

Definition withStatus (st : JobStatus) (j : Job) : Job :=
  mkJob (job_id j) (job_user_id j) (scheduled_at j) st (attempts j)
    (last_error j).

(** A row of the batch handed to [upsert]: [user_id] and [scheduled_at];
    its [status] is always ["pending"]. *)
Definition UpsertRow : Type := option string * Z.

Section WithZoneData.
Variable getZone : string -> option Zone.

(** [moment.tz(nowUtc, user.timezone)], as the local wall-clock reading;
    without a name, or without data for it, the moment stays in UTC. *)
Definition userNow (tz : option string) (nowUtc : Z) : Z :=
  match tz with
  | Some name =>
      match getZone name with
      | Some z => toLocal z nowUtc
      | None => nowUtc
      end
  | None => nowUtc
  end.

(** [userNow.format("HH:mm")] *)
Definition formatHHmm (local : Z) : string :=
  hhmm ((local / MS_PER_HOUR) mod 24) ((local / MS_PER_MINUTE) mod 60).

(** [new Date(Date.UTC(userNow.year(), userNow.month(), userNow.date(),
    userNow.hour(), userNow.minute(), 0, 0))]: the local calendar fields
    placed on the UTC time line. *)
Definition scheduledAt (local : Z) : Z :=
  cronInstant (local / MS_PER_DAY) ((local / MS_PER_HOUR) mod 24)
    ((local / MS_PER_MINUTE) mod 60).

(** The body of the loop of [enqueueDueBriefJobs] for one user.  A
    [delivery_time] of [null] makes [.slice] throw, and the empty
    [catch] passes the user over. *)
Definition dueUpsert (nowUtc : Z) (user : User) : list UpsertRow :=
  match delivery_time user with
  | None => []
  | Some deliveryTime =>
      let local := userNow (timezone user) nowUtc in
      if String.eqb (formatHHmm local) (substring 0 5 deliveryTime)
      then [(user_id user, scheduledAt local)]
      else []
  end.

Definition dueUpserts (nowUtc : Z) (users : list User) : list UpsertRow :=
  flat_map (dueUpsert nowUtc) users.

End WithZoneData.

(** The conflict target [user_id,scheduled_at]: a batch row meets a
    stored row with the same user id and instant (a [null] user id
    conflicts with nothing). *)
Definition keyMatches (row : UpsertRow) (j : Job) : bool :=
  match row.1, job_user_id j with
  | Some a, Some b => String.eqb a b && (row.2 =? scheduled_at j)
  | _, _ => false
  end.

Definition rowsClash (r r' : UpsertRow) : bool :=
  match r.1, r'.1 with
  | Some a, Some b => String.eqb a b && (r.2 =? r'.2)
  | _, _ => false
  end.

(** The database refuses a batch that would touch one row twice. *)
Fixpoint batchDistinct (rows : list UpsertRow) : bool :=
  match rows with
  | [] => true
  | r :: rest => negb (existsb (rowsClash r) rest) && batchDistinct rest
  end.

Section WithDefaults.

(** The default of the [attempts] column, which the source does not
    show. *)
Variable defaultAttempts : Z.

(** [upsert] of one row with [onConflict: "user_id,scheduled_at"]: a
    stored row with that key takes the columns of the batch row (its
    status becomes [pending]), otherwise a row is inserted. *)
Definition upsertRow (table : list Job) (row : UpsertRow) : list Job :=
  if existsb (keyMatches row) table
  then map (fun j => if keyMatches row j then withStatus pending j else j)
         table
  else (table
        ++ [mkJob (length table) row.1 row.2 pending defaultAttempts None])%list.

Definition upsertAll (table : list Job) (rows : list UpsertRow)
  : list Job :=
  fold_left upsertRow rows table.

(** What [enqueueDueBriefJobs] returns: [{ inserted, error }]. *)
Record Enqueued := mkEnqueued {
  inserted : nat;
  enqueueError : bool
}.

Definition enqueueDueBriefJobs (getZone : string -> option Zone)
    (available : bool) (users : list User) (nowUtc : Z)
    (table : list Job) : Enqueued * list Job :=
  let upserts := dueUpserts getZone nowUtc users in
  match upserts with
  | [] => (mkEnqueued 0 false, table)
  | _ =>
      if available && batchDistinct upserts
      then (mkEnqueued (length upserts) false, upsertAll table upserts)
      else (mkEnqueued 0 true, table)
  end.

End WithDefaults.

(** The columns [fetchNextBriefJobs] selects. *)
Record JobView := mkView {
  view_id : nat;
  view_user_id : option string;
  view_scheduled_at : Z;
  view_status : JobStatus;
  view_attempts : Z
}.

Definition view (j : Job) : JobView :=
  mkView (job_id j) (job_user_id j) (scheduled_at j) (job_status j)
    (attempts j).

(** [.order("scheduled_at", { ascending: true })].  The order among rows
    of one instant is the database's choice; here they keep the order of
    the table. *)
Fixpoint insertBySchedule (j : Job) (sorted : list Job) : list Job :=
  match sorted with
  | [] => [j]
  | k :: rest =>
      if scheduled_at j <=? scheduled_at k then j :: sorted
      else k :: insertBySchedule j rest
  end.

Definition orderBySchedule (jobs : list Job) : list Job :=
  fold_right insertBySchedule [] jobs.

(** [fetchNextBriefJobs(limit)]: an error of the query gives []. *)
Definition fetchNextBriefJobs (available : bool) (nowUtc : Z) (limit : nat)
    (table : list Job) : list JobView :=
  if available
  then map view
         (firstn limit
            (orderBySchedule
               (List.filter
                  (fun j => isPending j && (scheduled_at j <=? nowUtc))
                  table)))
  else [].

(** [.update({...}).eq("id", id)]: an [undefined] value is not sent, so
    [attempts] is not among the columns written. *)
Definition updateWhereId (f : Job -> Job) (id : nat) (table : list Job)
  : list Job :=
  map (fun j => if (job_id j =? id)%nat then f j else j) table.

Definition markJobProcessing (available : bool) (id : nat)
    (table : list Job) : list Job :=
  if available then updateWhereId (withStatus processing) id table
  else table.

Definition completeJob (available : bool) (id : nat) (table : list Job)
  : list Job :=
  if available then updateWhereId (withStatus completed) id table
  else table.

Definition failJob (available : bool) (id : nat)
    (lastError : option string) (table : list Job) : list Job :=
  if available
  then updateWhereId
         (fun j =>
            mkJob (job_id j) (job_user_id j) (scheduled_at j) failed
              (attempts j) lastError)
         id table
  else table.

(** A call of one of the three state helpers. *)
Inductive QueueOp :=
| MarkProcessing (id : nat)
| Complete (id : nat)
| Fail (id : nat) (lastError : option string).

Definition applyOp (available : bool) (table : list Job) (op : QueueOp)
  : list Job :=
  match op with
  | MarkProcessing id => markJobProcessing available id table
  | Complete id => completeJob available id table
  | Fail id lastError => failJob available id lastError table
  end.

(** A batch row is settled in a table when a stored row has its key and
    every stored row with its key is pending. *)
Definition settled (row : UpsertRow) (table : list Job) : Prop :=
  existsb (keyMatches row) table = true
  /\ Forall (fun j => keyMatches row j = true -> job_status j = pending)
       table.

(** The key of a stored row. *)
Definition jobKey (j : Job) : option string * Z :=
  (job_user_id j, scheduled_at j).

(** A zone nine hours ahead of UTC all year (offset -540), as Tokyo. *)
Definition Asia_Tokyo : Zone := mkZone [] (-540).

Definition zoneDataEast (name : string) : option Zone :=
  if String.eqb name "Asia/Tokyo" then Some Asia_Tokyo else zoneData name.

Definition taro : User :=
  mkUser (Some "U4") (Some "Asia/Tokyo") (Some "taro@example.com")
    (Some "08:00:00") (Some "S4").

(** 2024-07-14 23:00 UTC, 08:00 of 2024-07-15 in Tokyo. *)
Definition tokyoMorning : Z := 1720998000000.

End Queue.

(** ** User preferences ([user_preferences]) of supabase-helper.js *)

Module Preferences.

(** The table is a map keyed by [user_id], the unique column that
    [onConflict: "user_id"] names.

    [updateUserPreference]: the boolean returned and the table
    afterwards.  The arguments are strings or [null]; [slack_user_id] is
    among the columns written only when it is truthy, so a stored row
    keeps the one it has. *)
Definition updateUserPreference (available : bool) (userId : string)
    (timezone deliveryTime userEmail slackUserId : option string)
    (prefs : gmap string User) : bool * gmap string User :=
  if available then
    let kept :=
      match prefs !! userId with
      | Some old => slack_user_id old
      | None => None
      end in
    (true,
     <[userId :=
         mkUser (Some userId) timezone userEmail deliveryTime
           (if truthy slackUserId then slackUserId else kept)]> prefs)
  else (false, prefs).

(** [getUserPreferences]: by user id when it is truthy, else by email;
    [.single()] gives the row only when exactly one matches, and every
    error gives [null]. *)
Definition getUserPreferences (available : bool)
    (userId userEmail : option string) (prefs : gmap string User)
  : option User :=
  if negb (truthy userId) && negb (truthy userEmail) then None
  else
    let rows :=
      if truthy userId then
        match prefs !! text userId with
        | Some u => [u]
        | None => []
        end
      else
        List.filter
          (fun u =>
             match user_email u, userEmail with
             | Some a, Some b => String.eqb a b
             | _, _ => false
             end)
          (map_to_list prefs).*2 in
    if available then Store.single rows else None.

End Preferences.

(** ** The data-source client (gmail-calendar-client.js) under the retry
       helper *)

Module GoogleClient.
Import Retry.

(** What one POST to the main project gives: axios throws (network
    error, timeout, status outside 2xx), or it answers with a body, of
    which the calls read [success] and the list. *)
Inductive HttpOutcome (A : Type) :=
| HttpThrew (message : string)
| HttpAnswered (success : bool) (items : option (list A)).
Arguments HttpThrew {A} message.
Arguments HttpAnswered {A} success items.

(** [getRecentEmails], and in the same way [getTodaysEvents] and
    [getUpcomingEvents]: the list of a successful answer ([] when it has
    none), [] for an answer without [success], and the error rethrown
    when the request threw. *)
Definition getRecentEmails {A} (o : HttpOutcome A) : Attempt (list A) :=
  match o with
  | HttpThrew message => Fails message
  | HttpAnswered true (Some items) => Succeeds items
  | HttpAnswered _ _ => Succeeds []
  end.

(** The time slept in a trace of the retry helper. *)
Fixpoint totalDelay (events : list Event) : Z :=
  match events with
  | [] => 0
  | Delay ms :: rest => ms + totalDelay rest
  | Invoke _ :: rest => totalDelay rest
  end.

(** The number of times a trace invokes the operation. *)
Fixpoint invocations (events : list Event) : nat :=
  match events with
  | [] => 0
  | Invoke _ :: rest => S (invocations rest)
  | Delay _ :: rest => invocations rest
  end.

(** A request that throws at every attempt, and one that is answered
    without [success]. *)
Definition alwaysThrows : nat -> HttpOutcome string :=
  fun _ => HttpThrew "ECONNREFUSED".

Definition refused : nat -> HttpOutcome string :=
  fun _ => HttpAnswered false None.

End GoogleClient.

(** * Properties *)

(** ** The dedup guard *)

Module DedupProps.
Import Store Firing Scenarios.

Lemma notnot_single_length {A} (rows : list A) :
  notnot (single rows) = (length rows =? 1)%nat.
Proof. destruct rows as [|a [|b rest]]; reflexivity. Qed.

Lemma notnot_limit1_nonempty {A} (rows : list A) :
  notnot (limit1_maybeSingle rows) = negb (length rows =? 0)%nat.
Proof. destruct rows; reflexivity. Qed.

(** A row counts for the daily check when its UTC calendar day is the
    current one or a later one. *)
Lemma since_start_of_day (now t : Z) :
  (startOfUtcDay now <=? t) = (now / 86400000 <=? t / 86400000).
Proof.
  unfold startOfUtcDay, MS_PER_DAY.
  destruct (now / 86400000 <=? t / 86400000) eqn:Hday.
  - apply Z.leb_le in Hday. apply Z.leb_le.
    Z.div_mod_to_equations. lia.
  - apply Z.leb_gt in Hday. apply Z.leb_gt.
    Z.div_mod_to_equations. lia.
Qed.

(** C10: the daily check answers "already sent" exactly when the table
    holds one row, no more and no less, whose [user_id] is the user's
    and whose [last_used] falls on the current UTC calendar day (day
    number [now / 86400000]) or later; with no such row, or with two or
    more, the single-row fetch yields no data and the check answers
    false, as it does when the query comes back with an error. *)
Theorem checkIfAlreadySent_exactly_one (answered : bool)
    (table : list UsageRow) (now : Z) (userId : string) :
  checkIfAlreadySent answered table now userId
  = answered
    && Nat.eqb
         (length
            (List.filter
               (fun r =>
                  String.eqb (row_user_id r) userId
                  && (now / 86400000 <=? last_used r / 86400000))
               table))
         1.
Proof.
  unfold checkIfAlreadySent. cbv zeta.
  destruct answered; [|reflexivity]. rewrite notnot_single_length.
  unfold rowsSince. simpl. f_equal. f_equal. apply List.filter_ext.
  intros r. rewrite since_start_of_day. reflexivity.
Qed.

(** The cooldown check, for comparison, answers true for any number of
    rows above zero. *)
Lemma checkIfSentRecently_nonempty (table : list UsageRow) (now : Z)
    (userId : string) (windowSeconds : Z) :
  checkIfSentRecently true table now userId windowSeconds
  = negb (length (rowsSince table userId
                    (now - windowSeconds * MS_PER_SECOND)) =? 0)%nat.
Proof. unfold checkIfSentRecently. apply notnot_limit1_nonempty. Qed.

(** With exactly one row today the callback does skip. *)
Lemma fire_skips_on_single_row (user : User) (sendResult : bool)
    (w : World) :
  length (rowsSince (brief_usage w) (text (user_id user))
            (startOfUtcDay (now w))) = 1%nat ->
  fire user sendResult w = w.
Proof.
  intros Hone. unfold fire, checkIfAlreadySent.
  rewrite notnot_single_length, Hone. reflexivity.
Qed.

(** With two or more rows today, none of them within the cooldown, the
    callback delivers to a user that has a recipient id. *)
Lemma fire_delivers_with_many_rows (user : User) (sendResult : bool)
    (w : World) :
  truthy (slack_user_id user) = true ->
  (2 <= length (rowsSince (brief_usage w) (text (user_id user))
                  (startOfUtcDay (now w))))%nat ->
  rowsSince (brief_usage w) (text (user_id user))
    (now w - COOLDOWN_SECONDS * MS_PER_SECOND) = [] ->
  calls (fire user sendResult w)
  = (calls w ++ [(text (slack_user_id user), text (user_email user))])%list.
Proof.
  intros Hslack Hmany Hcool. unfold fire, checkIfAlreadySent,
    checkIfSentRecently.
  rewrite notnot_single_length, Hcool.
  destruct (length _ =? 1)%nat eqn:Hone;
    [apply Nat.eqb_eq in Hone; lia|].
  simpl. unfold deliverAndLog. rewrite Hslack. reflexivity.
Qed.

(** How two rows of one day come about: two firings for the same user
    overlap, both pass the guard on the empty history before either has
    logged, and each then delivers and logs. *)
Lemma overlapping_firings_leave_two_rows :
  let w0 := mkWorld 1721001870000 [] [] in
  let w2 :=
    deliverAndLog alice true
      (atTime 1721001900200
         (deliverAndLog alice true (atTime 1721001900000 w0))) in
  guardHit alice w0 = false
  /\ guardHit alice (atTime 1721001870200 w0) = false
  /\ brief_usage w2 = brief_usage twoRowsToday
  /\ length (calls w2) = 2%nat.
Proof. vm_compute. repeat split. Qed.

(** C1: with two rows written today, both older than the cooldown, the
    user has a [success] row of today and the firing still calls the
    delivery. *)
Theorem fire_delivers_again_with_two_rows :
  hasSuccessToday twoRowsToday "U1" = true
  /\ guardHit alice twoRowsToday = false
  /\ calls (fire alice true twoRowsToday) = [("S1", "alice@example.com")].
Proof. vm_compute. repeat split. Qed.

(** C9, as stated, fails: a firing stopped by the daily check leaves no
    [skipped] row behind. *)
Lemma guard_skip_writes_no_row :
  guardHit alice oneRowToday = true
  /\ ~ (exists r, In r (brief_usage (fire alice true oneRowToday))
                  /\ status r = skipped).
Proof.
  split; [reflexivity|].
  intros [r [Hin Hst]]. vm_compute in Hin.
  destruct Hin as [<-|[]]. discriminate Hst.
Qed.

(** C9, amended: a firing stopped by the guard changes nothing: no row
    of any status is written (so no failure is recorded) and no
    delivery is called. *)
Theorem guard_skip_leaves_world_unchanged (user : User)
    (sendResult : bool) (w : World) :
  guardHit user w = true -> fire user sendResult w = w.
Proof.
  unfold guardHit, fire. intros Hhit.
  apply orb_true_iff in Hhit as [H|H]; rewrite H; simpl.
  - reflexivity.
  - rewrite andb_false_r. reflexivity.
Qed.

Lemma guard_skip_leaves_world_unchanged_witness :
  guardHit alice oneRowToday = true
  /\ fire alice true oneRowToday = oneRowToday.
Proof.
  split; [reflexivity|].
  apply (guard_skip_leaves_world_unchanged alice true oneRowToday).
  reflexivity.
Defined.

End DedupProps.

(** ** The schedule synchronizer *)

Module SyncProps.
Import Moment Converter Scheduler.

Section WithZoneData.
Variable getZone : string -> option Zone.

Lemma stopHandles_length (handles : list nat) (ts : list Task) :
  length (stopHandles handles ts) = length ts.
Proof.
  induction handles as [|h hs IH]; simpl; [reflexivity|].
  rewrite length_alter. exact IH.
Qed.

Lemma stop_idempotent (t : Task) : stop (stop t) = stop t.
Proof. reflexivity. Qed.

Lemma stopHandles_lookup_in (handles : list nat) (ts : list Task)
    (h : nat) :
  h ∈ handles -> stopHandles handles ts !! h = stop <$> ts !! h.
Proof.
  induction handles as [|a hs IH]; intros Hin.
  - inversion Hin.
  - simpl. destruct (decide (a = h)) as [->|Hne].
    + rewrite list_lookup_alter_eq.
      destruct (decide (h ∈ hs)) as [Hhs|Hhs].
      * rewrite (IH Hhs). destruct (ts !! h); reflexivity.
      * clear IH Hin. induction hs as [|b hs IHhs]; simpl.
        { reflexivity. }
        apply not_elem_of_cons in Hhs as [Hb Hhs].
        rewrite list_lookup_alter_ne by congruence.
        apply IHhs, Hhs.
    + rewrite list_lookup_alter_ne by congruence.
      apply IH. apply elem_of_cons in Hin as [Heq|Hin]; congruence.
Qed.

Lemma stopHandles_lookup_notin (handles : list nat) (ts : list Task)
    (h : nat) :
  h ∉ handles -> stopHandles handles ts !! h = ts !! h.
Proof.
  induction handles as [|a hs IH]; intros Hnot; simpl; [reflexivity|].
  apply not_elem_of_cons in Hnot as [Hne Hnot].
  rewrite list_lookup_alter_ne by congruence. apply IH, Hnot.
Qed.

Lemma syncBegin_activeTasks (s : State) : activeTasks (syncBegin s) = ∅.
Proof. reflexivity. Qed.

Lemma syncBegin_stops (s : State) (uid : string) (h : nat) (t : Task) :
  activeTasks s !! uid = Some h ->
  tasks (syncBegin s) !! h = Some t ->
  running t = false.
Proof.
  intros Hact Hlook. unfold syncBegin in Hlook. simpl in Hlook.
  rewrite stopHandles_lookup_in in Hlook.
  - destruct (tasks s !! h); inversion Hlook. reflexivity.
  - apply list_elem_of_fmap. exists (uid, h). split; [reflexivity|].
    apply elem_of_map_to_list. exact Hact.
Qed.

Lemma scheduleUser_unschedulable (now : Z) (s : State) (user : User) :
  schedulable getZone now user = false -> scheduleUser getZone now s user = s.
Proof.
  unfold schedulable, scheduleUser. intros H.
  destruct (truthy (user_id user)); simpl in *; [|reflexivity].
  destruct (truthy (delivery_time user)); simpl in *; [|reflexivity].
  destruct (truthy (timezone user)); simpl in *; [|reflexivity].
  destruct (createUserCronJob getZone user now); [discriminate|].
  reflexivity.
Qed.

Lemma scheduleUser_dom (now : Z) (s : State) (user : User) :
  dom (activeTasks (scheduleUser getZone now s user))
  = dom (activeTasks s)
    ∪ (if schedulable getZone now user
       then {[ text (user_id user) ]} else ∅ : gset string).
Proof.
  destruct (schedulable getZone now user) eqn:Hs.
  - unfold schedulable in Hs. unfold scheduleUser.
    destruct (truthy (user_id user)); simpl in *; [|discriminate].
    destruct (truthy (delivery_time user)); simpl in *; [|discriminate].
    destruct (truthy (timezone user)); simpl in *; [|discriminate].
    destruct (createUserCronJob getZone user now); [|discriminate].
    simpl. rewrite dom_insert_L. set_solver.
  - rewrite scheduleUser_unschedulable by exact Hs. set_solver.
Qed.

Lemma syncResume_dom (now : Z) (users : list User) (s : State) :
  dom (activeTasks (syncResume getZone now users s))
  = dom (activeTasks s)
    ∪ list_to_set
        (map (fun u => text (user_id u))
           (List.filter (schedulable getZone now) users)).
Proof.
  unfold syncResume. revert s.
  induction users as [|u us IH]; intros s; simpl.
  - set_solver.
  - rewrite IH, scheduleUser_dom.
    destruct (schedulable getZone now u); simpl; set_solver.
Qed.

(** No piece of the cycle reads or writes the flag. *)
Lemma scheduleUser_flag (now : Z) (s : State) (user : User) :
  syncInProgress (scheduleUser getZone now s user) = syncInProgress s.
Proof.
  unfold scheduleUser.
  destruct (_ || _); [reflexivity|].
  destruct (createUserCronJob getZone user now); reflexivity.
Qed.

Lemma syncAllSchedules_flag (now : Z) (r : Response) (s : State) :
  syncInProgress (syncAllSchedules getZone now r s) = syncInProgress s.
Proof.
  unfold syncAllSchedules.
  destruct (getActiveUsers r) as [users|]; [|reflexivity].
  unfold syncResume.
  assert (H : forall us s0,
             syncInProgress (foldl (scheduleUser getZone now) s0 us)
             = syncInProgress s0).
  { induction us as [|u us IH]; intros s0; simpl; [reflexivity|].
    rewrite IH. apply scheduleUser_flag. }
  rewrite H. reflexivity.
Qed.

Lemma filter_installable (now : Z) (data : list User) :
  List.filter (schedulable getZone now)
    (List.filter (fun user => truthy (slack_user_id user)) data)
  = List.filter (installable getZone now) data.
Proof.
  induction data as [|u us IH]; simpl; [reflexivity|].
  assert (Hu : installable getZone now u
               = truthy (slack_user_id u) && schedulable getZone now u).
  { unfold installable, hasAllFields, schedulable.
    destruct (truthy (user_id u)), (truthy (delivery_time u)),
      (truthy (timezone u)), (truthy (slack_user_id u)),
      (createUserCronJob getZone u now); reflexivity. }
  rewrite Hu.
  destruct (truthy (slack_user_id u)); simpl; rewrite ?IH; reflexivity.
Qed.

(** A whole cycle is the interleaved one with nothing in between. *)
Lemma interleaved_alone (now : Z) (r : Response) (s : State) :
  interleaved getZone [] now r s = syncAllSchedules getZone now r s.
Proof. reflexivity. Qed.

(** A failed fetch leaves the second piece with nothing to do. *)
Lemma syncAfterFetch_failed (now : Z) (r : Response) (s : State) :
  fetchFailed r = true -> syncAfterFetch getZone now r s = s.
Proof.
  intros Hfail.
  destruct r; [reflexivity|reflexivity|discriminate Hfail].
Qed.

(** No piece restarts a task: the tasks are only stopped in place, and
    new ones are appended. *)
Lemma syncBegin_keeps_stopped (s : State) (h : nat) (t : Task) :
  tasks s !! h = Some t -> running t = false ->
  exists t', tasks (syncBegin s) !! h = Some t' /\ running t' = false.
Proof.
  intros Hlook Hrun. unfold syncBegin. simpl.
  destruct (decide (h ∈ (map_to_list (activeTasks s)).*2)) as [Hin|Hnot].
  - rewrite (stopHandles_lookup_in _ _ _ Hin), Hlook.
    exists (stop t). split; reflexivity.
  - rewrite (stopHandles_lookup_notin _ _ _ Hnot).
    exists t. split; assumption.
Qed.

Lemma scheduleUser_keeps_task (now : Z) (s : State) (user : User)
    (h : nat) (t : Task) :
  tasks s !! h = Some t ->
  tasks (scheduleUser getZone now s user) !! h = Some t.
Proof.
  intros Hlook. unfold scheduleUser.
  destruct (_ || _); [exact Hlook|].
  destruct (createUserCronJob getZone user now); [|exact Hlook].
  simpl. rewrite lookup_app_l; [exact Hlook|].
  apply lookup_lt_Some in Hlook. exact Hlook.
Qed.

Lemma syncResume_keeps_task (now : Z) (users : list User) (s : State)
    (h : nat) (t : Task) :
  tasks s !! h = Some t ->
  tasks (syncResume getZone now users s) !! h = Some t.
Proof.
  unfold syncResume. revert s.
  induction users as [|u us IH]; intros s Hlook; simpl; [exact Hlook|].
  apply IH, scheduleUser_keeps_task, Hlook.
Qed.

Lemma runPiece_keeps_stopped (s : State) (p : Piece) (h : nat) (t : Task) :
  tasks s !! h = Some t -> running t = false ->
  exists t', tasks (runPiece getZone s p) !! h = Some t'
             /\ running t' = false.
Proof.
  intros Hlook Hrun. destruct p as [|now r]; simpl.
  - apply (syncBegin_keeps_stopped s h t); assumption.
  - exists t. split; [|exact Hrun]. unfold syncAfterFetch.
    destruct (getActiveUsers r) as [users|]; [|exact Hlook].
    apply syncResume_keeps_task, Hlook.
Qed.

Lemma pieces_keep_stopped (others : list Piece) (s : State) (h : nat)
    (t : Task) :
  tasks s !! h = Some t -> running t = false ->
  exists t', tasks (foldl (runPiece getZone) s others) !! h = Some t'
             /\ running t' = false.
Proof.
  revert s t. induction others as [|p ps IH]; intros s t Hlook Hrun; simpl.
  - exists t. split; assumption.
  - destruct (runPiece_keeps_stopped s p h t Hlook Hrun) as (t' & Ht' & Hr').
    apply (IH _ t' Ht' Hr').
Qed.

End WithZoneData.
End SyncProps.

Module SyncClaims.
Import Moment Converter Scheduler SyncProps Scenarios.

(** C2, as stated, fails: after a cycle whose fetch failed the trigger
    that was running for the user is stopped and gone from the map. *)
Lemma fetch_failure_drops_running_trigger :
  let before :=
    syncAllSchedules zoneData summer2024 (QueryData (Some [alice]))
      initial in
  let after := syncAllSchedules zoneData summer2024 QueryError before in
  activeTasks before !! "U1" = Some 0%nat
  /\ runningFor before "U1" = [0%nat]
  /\ activeTasks after !! "U1" = None
  /\ runningFor after "U1" = [].
Proof. vm_compute. repeat split. Qed.

(** The cycle of C2, with another cycle run while it is suspended at
    its fetch: the map it leaves is not empty. *)
Lemma failed_cycle_interleaved_keeps_foreign_trigger :
  let before :=
    syncAllSchedules zoneData summer2024 (QueryData (Some [alice]))
      initial in
  let others := [Begins; Resumes summer2024 (QueryData (Some [alice]))] in
  let after := interleaved zoneData others summer2024 QueryError before in
  activeTasks after !! "U1" = Some 1%nat
  /\ runningFor after "U1" = [1%nat].
Proof. vm_compute. repeat split. Qed.

(** C2, amended: when the fetch of the active users fails (the query
    answers an error, or rejects) the cycle does not keep the schedule.
    Whatever pieces of other cycles run while it is suspended, the
    failed cycle leaves the state as it finds it when the fetch returns
    (it creates no task and touches no entry of the map), and every
    task the map held when the cycle began is stopped and stays so.  A
    cycle that nothing interleaves with leaves the map empty and the
    number of tasks as it was. *)
Theorem fetch_failure_clears_triggers (getZone : string -> option Zone)
    (now : Z) (r : Response) (s : State) (others : list Piece) :
  fetchFailed r = true ->
  let s' := interleaved getZone others now r s in
  s' = atFetchReturn getZone others s
  /\ (forall uid h t0,
        activeTasks s !! uid = Some h ->
        tasks s !! h = Some t0 ->
        exists t, tasks s' !! h = Some t /\ running t = false)
  /\ interleaved getZone [] now r s = syncAllSchedules getZone now r s
  /\ activeTasks (syncAllSchedules getZone now r s) = ∅
  /\ length (tasks (syncAllSchedules getZone now r s)) = length (tasks s).
Proof.
  intros Hfail. cbv zeta.
  assert (Hsame : interleaved getZone others now r s
                  = atFetchReturn getZone others s)
    by (apply syncAfterFetch_failed, Hfail).
  assert (Halone : syncAllSchedules getZone now r s = syncBegin s).
  { rewrite <- interleaved_alone. apply syncAfterFetch_failed, Hfail. }
  split; [exact Hsame|]. split; [|split; [reflexivity|]].
  - intros uid h t0 Hact Hlook. rewrite Hsame. unfold atFetchReturn.
    assert (Hin : h ∈ (map_to_list (activeTasks s)).*2).
    { apply list_elem_of_fmap. exists (uid, h). split; [reflexivity|].
      apply elem_of_map_to_list. exact Hact. }
    apply (pieces_keep_stopped getZone others (syncBegin s) h (stop t0)).
    + unfold syncBegin. simpl.
      rewrite (stopHandles_lookup_in _ _ _ Hin), Hlook. reflexivity.
    + reflexivity.
  - rewrite Halone. split; [reflexivity|apply stopHandles_length].
Qed.

Lemma fetch_failure_clears_triggers_witness :
  let before :=
    syncAllSchedules zoneData summer2024 (QueryData (Some [alice]))
      initial in
  let others := [Begins; Resumes summer2024 (QueryData (Some [alice]))] in
  let s' := interleaved zoneData others summer2024 QueryError before in
  fetchFailed QueryError = true
  /\ s' = atFetchReturn zoneData others before
  /\ (forall uid h t0,
        activeTasks before !! uid = Some h ->
        tasks before !! h = Some t0 ->
        exists t, tasks s' !! h = Some t /\ running t = false)
  /\ interleaved zoneData [] summer2024 QueryError before
     = syncAllSchedules zoneData summer2024 QueryError before
  /\ activeTasks (syncAllSchedules zoneData summer2024 QueryError before)
     = ∅
  /\ length (tasks (syncAllSchedules zoneData summer2024 QueryError
                      before))
     = length (tasks before).
Proof.
  split; [reflexivity|].
  apply (fetch_failure_clears_triggers zoneData summer2024 QueryError
           (syncAllSchedules zoneData summer2024 (QueryData (Some [alice]))
              initial)
           [Begins; Resumes summer2024 (QueryData (Some [alice]))]).
  reflexivity.
Defined.

(** C7, as stated, fails: an entry with every required field and a
    recipient id, whose delivery time reads 25:00, gets no trigger. *)
Lemma sync_omits_entry_with_all_fields :
  hasAllFields bob = true
  /\ activeTasks
       (syncAllSchedules zoneData summer2024 (QueryData (Some [bob]))
          initial) !! "U2" = None.
Proof. vm_compute. split; reflexivity. Qed.

(** The cycle of C7 with another cycle run while it is suspended: the
    map holds an id that this cycle did not fetch. *)
Lemma interleaved_cycle_keeps_foreign_id :
  let others := [Resumes summer2024 (QueryData (Some [carol]))] in
  let after :=
    interleaved zoneData others summer2024 (QueryData (Some [alice]))
      initial in
  List.filter (installable zoneData summer2024) [alice] = [alice]
  /\ activeTasks after !! "U3" = Some 0%nat
  /\ activeTasks after !! "U1" = Some 1%nat.
Proof. vm_compute. repeat split. Qed.

(** C7, amended: the second piece of a cycle whose fetch succeeded adds
    to the map exactly the user ids of the fetched entries that have the
    required fields and a recipient id and whose cron job could be
    created; the ids the map holds when the fetch returns stay.  After
    a cycle that nothing interleaved with the map holds exactly those
    ids. *)
Theorem sync_installs_exactly_installable
    (getZone : string -> option Zone) (now : Z) (entries : list User)
    (s : State) (others : list Piece) :
  dom (activeTasks
         (interleaved getZone others now (QueryData (Some entries)) s))
  = dom (activeTasks (atFetchReturn getZone others s))
    ∪ list_to_set
        (map (fun u => text (user_id u))
           (List.filter (installable getZone now) entries))
  /\ dom (activeTasks
            (syncAllSchedules getZone now (QueryData (Some entries)) s))
     = list_to_set
         (map (fun u => text (user_id u))
            (List.filter (installable getZone now) entries)).
Proof.
  assert (Hs : forall s2,
             syncAfterFetch getZone now (QueryData (Some entries)) s2
             = syncResume getZone now
                 (List.filter (fun u => truthy (slack_user_id u)) entries)
                 s2)
    by (intros s2; destruct entries; reflexivity).
  split.
  - unfold interleaved. rewrite Hs, syncResume_dom, filter_installable.
    reflexivity.
  - rewrite <- interleaved_alone. unfold interleaved, atFetchReturn.
    simpl foldl. rewrite Hs, syncResume_dom, syncBegin_activeTasks.
    rewrite dom_empty_L, (left_id_L ∅ (∪)), filter_installable.
    reflexivity.
Qed.

(** C4: two requests interleave.  The second request starts while the
    first is suspended at its fetch; nothing drops it, the flag is
    never raised, and when both have resumed two triggers run for the
    same user while the map knows one. *)
Theorem concurrent_syncs_interleave :
  let s1 := syncBegin initial in
  let s2 := syncBegin s1 in
  let s3 := syncResume zoneData summer2024 [alice] s2 in
  let s4 := syncResume zoneData summer2024 [alice] s3 in
  syncInProgress s1 = false
  /\ syncInProgress s4 = false
  /\ runningFor s4 "U1" = [0%nat; 1%nat]
  /\ activeTasks s4 !! "U1" = Some 1%nat.
Proof. vm_compute. repeat split. Qed.

End SyncClaims.

(** ** The retry helper *)

Module RetryProps.
Import Retry Scenarios.

Section Loop.
Context {A : Type}.
Variable operation : nat -> Attempt A.
Variable throwOnFailure : bool.
Variable maxRetries : nat.
Variable baseDelay : Z.

Lemma tailTrace_same (a : nat) : tailTrace baseDelay a a = [].
Proof. unfold tailTrace. rewrite Nat.sub_diag. reflexivity. Qed.

Lemma tailTrace_step (a k : nat) :
  (a < k)%nat ->
  tailTrace baseDelay a k
  = Delay (baseDelay * 2 ^ (Z.of_nat a - 1)) :: Invoke (S a)
      :: tailTrace baseDelay (S a) k.
Proof.
  intros Hlt. unfold tailTrace.
  replace (k - a)%nat with (S (k - S a)) by lia. simpl.
  replace (Z.of_nat (S a) - 2) with (Z.of_nat a - 1) by lia.
  reflexivity.
Qed.

(** The loop entered at attempt [a] with enough fuel stops at some
    attempt [k] between [a] and the maximum. *)
Lemma retryLoop_runs (fuel a : nat) :
  (1 <= a <= maxRetries)%nat ->
  (maxRetries - a < fuel)%nat ->
  exists k out,
    retryLoop operation throwOnFailure maxRetries baseDelay fuel a
    = Some (Invoke a :: tailTrace baseDelay a k, out)
    /\ (a <= k <= maxRetries)%nat
    /\ (forall j, (a <= j < k)%nat -> exists m, operation j = Fails m)
    /\ ((exists r, operation k = Succeeds r /\ out = Returned r)
        \/ (k = maxRetries
            /\ exists m,
                 operation k = Fails m
                 /\ out = giveUp throwOnFailure m)).
Proof.
  revert a. induction fuel as [|fuel IH]; intros a Ha Hfuel; [lia|].
  simpl.
  destruct (a <=? maxRetries)%nat eqn:Hle;
    [|apply Nat.leb_gt in Hle; lia].
  destruct (operation a) as [r|m] eqn:Hop.
  - exists a, (Returned r). rewrite tailTrace_same.
    split; [reflexivity|]. split; [lia|].
    split; [intros j Hj; lia|].
    left. exists r. split; [exact Hop|reflexivity].
  - destruct (a =? maxRetries)%nat eqn:Heq.
    + apply Nat.eqb_eq in Heq. subst a.
      exists maxRetries, (giveUp throwOnFailure m).
      rewrite tailTrace_same.
      split; [reflexivity|]. split; [lia|].
      split; [intros j Hj; lia|].
      right. split; [reflexivity|]. exists m. split; [exact Hop|].
      reflexivity.
    + apply Nat.eqb_neq in Heq.
      destruct (IH (S a)) as (k & out & Hrun & Hk & Hfail & Hend);
        [lia|lia|].
      exists k, out. rewrite Hrun.
      rewrite (tailTrace_step a k) by lia.
      split; [reflexivity|]. split; [lia|]. split; [|exact Hend].
      intros j Hj. destruct (Nat.eq_dec j a) as [->|Hne].
      * exists m. exact Hop.
      * apply Hfail. lia.
Qed.

End Loop.

(** The helper returns for every maximum. *)
Lemma retryOperation_total {A : Type} (operation : nat -> Attempt A)
    (throwOnFailure : bool) (maxRetries : nat) (baseDelay : Z) :
  exists r,
    retryOperation operation throwOnFailure maxRetries baseDelay = Some r.
Proof.
  destruct maxRetries as [|n].
  - eexists. reflexivity.
  - destruct (retryLoop_runs operation throwOnFailure (S n) baseDelay
                (S n) 1) as (k & out & Hrun & _); [lia|lia|].
    eexists. exact Hrun.
Qed.

(** C8, as stated, fails: with the defaults, the second attempt is
    preceded by a delay of [base], not [base * 2^(2-1)]. *)
Lemma second_attempt_waits_base :
  exists events out,
    retryOperation alwaysFails true DEFAULT_MAX_RETRIES DEFAULT_BASE_DELAY
    = Some (events, out)
    /\ delayBefore 2 events = Some DEFAULT_BASE_DELAY
    /\ delayBefore 2 events <> Some (DEFAULT_BASE_DELAY * 2 ^ (2 - 1)).
Proof.
  eexists _, _. split; [reflexivity|]. split; [reflexivity|].
  vm_compute. discriminate.
Qed.

(** C8, amended: for a maximum of at least one attempt the helper
    returns; it invokes the operation for the first time at once and
    for the k-th time, 2 <= k, after a delay of [base * 2^(k-2)]
    (that is [base * 2^(j-1)] after the j-th failure); it stops at the
    first success or at the maximum, and after a failure at the maximum
    it rethrows or returns the empty result as [throwOnFailure] says. *)
Theorem retryOperation_backoff {A : Type} (operation : nat -> Attempt A)
    (throwOnFailure : bool) (maxRetries : nat) (baseDelay : Z) :
  (1 <= maxRetries)%nat ->
  exists k out,
    retryOperation operation throwOnFailure maxRetries baseDelay
    = Some (backoffTrace baseDelay k, out)
    /\ (1 <= k <= maxRetries)%nat
    /\ (forall j, (1 <= j < k)%nat -> exists m, operation j = Fails m)
    /\ ((exists r, operation k = Succeeds r /\ out = Returned r)
        \/ (k = maxRetries
            /\ exists m,
                 operation k = Fails m
                 /\ out = if throwOnFailure then Thrown m
                          else ReturnedEmpty)).
Proof.
  intros Hmax. unfold retryOperation.
  destruct (retryLoop_runs operation throwOnFailure maxRetries baseDelay
              maxRetries 1) as (k & out & Hrun & Hk & Hfail & Hend);
    [lia|lia|].
  exists k, out. split; [exact Hrun|]. split; [exact Hk|].
  split; [exact Hfail|exact Hend].
Qed.

Lemma retryOperation_backoff_witness :
  (1 <= DEFAULT_MAX_RETRIES)%nat
  /\ exists k out,
       retryOperation alwaysFails true DEFAULT_MAX_RETRIES
         DEFAULT_BASE_DELAY
       = Some (backoffTrace DEFAULT_BASE_DELAY k, out)
       /\ (1 <= k <= DEFAULT_MAX_RETRIES)%nat
       /\ (forall j, (1 <= j < k)%nat ->
                     exists m, alwaysFails j = Fails m)
       /\ ((exists r, alwaysFails k = Succeeds r /\ out = Returned r)
           \/ (k = DEFAULT_MAX_RETRIES
               /\ exists m,
                    alwaysFails k = Fails m
                    /\ out = if true then Thrown m else ReturnedEmpty)).
Proof.
  split; [unfold DEFAULT_MAX_RETRIES; lia|].
  apply (retryOperation_backoff alwaysFails true DEFAULT_MAX_RETRIES
           DEFAULT_BASE_DELAY).
  unfold DEFAULT_MAX_RETRIES; lia.
Defined.

End RetryProps.

(** ** The time library: a local time that exists is parsed to an instant
       that shows it *)

Module ZoneProps.
Import Moment Converter.

Local Ltac unbool :=
  repeat match goal with
    | H : (_ && _) = true |- _ => apply andb_true_iff in H as [? ?]
    | H : inSpread _ _ _ = true |- _ => unfold inSpread in H
    | H : (_ <=? _) = true |- _ => apply Z.leb_le in H
    | H : (_ <? _) = true |- _ => apply Z.ltb_lt in H
    | H : (_ <? _) = false |- _ => apply Z.ltb_ge in H
    end.

Section Regular.
Variables lo sp : Z.

Lemma offset_go_inSpread (ps : list (Z * Z)) (last : Z) :
  forall offsetPrev untilPrev,
    regular_from lo sp offsetPrev untilPrev ps last = true ->
    forall u, lo <= offset_go ps last u <= lo + sp.
Proof.
  induction ps as [|[until offset] rest IH];
    intros offsetPrev untilPrev Hreg u; simpl in *.
  - unbool. lia.
  - unbool. destruct (u <? until); [lia|]. eapply IH; eassumption.
Qed.

Lemma regular_from_spread_nonneg (ps : list (Z * Z)) (last : Z) :
  forall offsetPrev untilPrev,
    regular_from lo sp offsetPrev untilPrev ps last = true -> 0 <= sp.
Proof.
  induction ps as [|[until offset] rest IH];
    intros offsetPrev untilPrev Hreg; simpl in *; unbool; lia.
Qed.

(** The scan of [parse] resumed after a period that was not chosen:
    the offset it ends on is in force at the instant it yields, and
    that instant is not before the end of the period left behind. *)
Lemma parse_go_sound (ps : list (Z * Z)) (last : Z) (target : Z) :
  forall offsetPrev untilPrev,
    regular_from lo sp offsetPrev untilPrev ps last = true ->
    lo <= offsetPrev <= lo + sp ->
    untilPrev - offsetPrev * MS_PER_MINUTE <= target ->
    (exists u, untilPrev <= u
               /\ u - offset_go ps last u * MS_PER_MINUTE = target) ->
    let r := parse_go offsetPrev ps last target in
    untilPrev <= target + r * MS_PER_MINUTE
    /\ offset_go ps last (target + r * MS_PER_MINUTE) = r.
Proof.
  unfold MS_PER_MINUTE.
  induction ps as [|[until offset] rest IH];
    intros offsetPrev untilPrev Hreg Hprev Hlow [u [Hu Hshow]]; simpl.
  - simpl in Hshow. split; [lia|reflexivity].
  - simpl in Hreg. unfold MS_PER_MINUTE in *.
    apply andb_true_iff in Hreg as [Hreg Hrest].
    apply andb_true_iff in Hreg as [Hreg Halt].
    apply andb_true_iff in Hreg as [Hlen Hoff].
    pose proof (offset_go_inSpread rest last _ _ Hrest) as Hspread.
    pose proof (regular_from_spread_nonneg rest last _ _ Hrest) as Hsp.
    unbool. simpl in Hshow.
    set (adjusted := if offsetPrev <? offset then offsetPrev else offset).
    assert (Hadj : adjusted <= offset).
    { unfold adjusted. destruct (offsetPrev <? offset) eqn:E; unbool; lia. }
    destruct (target <? until - adjusted * 60000) eqn:Hpick; unbool.
    + (* this period is chosen *)
      assert (Hupper : target + offset * 60000 < until).
      { unfold adjusted in Hpick.
        destruct (offsetPrev <? offset) eqn:Hrose; [|unbool; lia].
        simpl in Halt. unbool.
        destruct (u <? until) eqn:Hin; unbool; [lia|].
        destruct rest as [|[until' offset'] rest']; simpl in *.
        - lia.
        - apply andb_true_iff in Hrest as [Hrest Hrest'].
          apply andb_true_iff in Hrest as [Hrest _].
          apply andb_true_iff in Hrest as [Hlen' _]. unbool.
          pose proof (offset_go_inSpread rest' last _ _ Hrest' u)
            as Hfar.
          unfold MS_PER_MINUTE in *.
          destruct (u <? until') eqn:Hin'; unbool; lia. }
      split.
      * destruct (u <? until) eqn:Hin; unbool; [lia|].
        specialize (Hspread u). lia.
      * apply Z.ltb_lt in Hupper. rewrite Hupper. reflexivity.
    + (* the scan moves on *)
      assert (Hu' : until <= u).
      { destruct (u <? until) eqn:Hin; unbool; lia. }
      assert (Hsame : (u <? until) = false) by (apply Z.ltb_ge; lia).
      rewrite Hsame in Hshow.
      destruct (IH offset until Hrest) as [Hlower Hforce];
        [lia|lia|exists u; split; [lia|exact Hshow]|].
      split; [lia|].
      assert (Hge : (target + parse_go offset rest last target * 60000
                     <? until) = false) by (apply Z.ltb_ge; lia).
      rewrite Hge. exact Hforce.
Qed.

End Regular.

(** In a regular zone, a local time that exists is parsed to an offset
    that is in force at the instant obtained with it. *)
Lemma parse_roundtrip (lo sp : Z) (z : Zone) (target : Z) :
  regular lo sp z = true ->
  localExists z target ->
  utcOffset z (target + parse z target * MS_PER_MINUTE) = parse z target.
Proof.
  unfold regular, localExists, toLocal, utcOffset, parse.
  destruct (periods z) as [|[until offset] rest]; intros Hreg [u Hu].
  - reflexivity.
  - apply andb_true_iff in Hreg as [Hoff Hrest]. unbool.
    simpl in *. rewrite Z.ltb_irrefl.
    destruct (target <? until - offset * MS_PER_MINUTE) eqn:Hpick.
    + unbool.
      assert (Hin : (target + offset * MS_PER_MINUTE <? until) = true)
        by (apply Z.ltb_lt; lia).
      rewrite Hin. reflexivity.
    + unbool.
      assert (Hu' : (u <? until) = false).
      { destruct (u <? until) eqn:Hin; [|reflexivity]. unbool. lia. }
      rewrite Hu' in Hu. unbool.
      destruct (parse_go_sound lo sp rest (lastOffset z) target
                  offset until Hrest) as [Hlower Hforce];
        [lia|lia|exists u; split; [lia|exact Hu]|].
      assert (Hge : (target
                     + parse_go offset rest (lastOffset z) target
                       * MS_PER_MINUTE <? until) = false)
        by (apply Z.ltb_ge; lia).
      rewrite Hge. exact Hforce.
Qed.

(** Regularity is needed: in a zone that is not regular the library can
    misread a local time that does exist. *)
Lemma irregular_zone_misreads_existing_time :
  let target := 86384700000 in
  localExists Scenarios.zigzag target
  /\ toLocal Scenarios.zigzag
       (target + parse Scenarios.zigzag target * MS_PER_MINUTE)
     = target + 30 * MS_PER_MINUTE
  /\ forall lo sp, regular lo sp Scenarios.zigzag = false.
Proof.
  split; [exists 86400900000; vm_compute; reflexivity|].
  split; [vm_compute; reflexivity|].
  intros lo sp. unfold regular. simpl.
  replace (240 <? 300) with true by reflexivity.
  replace (270 <=? 240) with false by reflexivity.
  simpl. rewrite !andb_false_r. reflexivity.
Qed.

(** The same with real rules: on 1947-11-02 London went from summer
    time to Greenwich time, having been on double summer time before;
    03:30 of that day exists, and the library reads it as 02:30.  The
    table is regular for no bounds. *)
Lemma double_summer_time_misreads_existing_time :
  let target := -699481800000 in
  localExists Scenarios.Europe_London_1947 target
  /\ toLocal Scenarios.Europe_London_1947
       (target + parse Scenarios.Europe_London_1947 target * MS_PER_MINUTE)
     = target - 60 * MS_PER_MINUTE
  /\ forall lo sp, regular lo sp Scenarios.Europe_London_1947 = false.
Proof.
  split; [exists (-699481800000); vm_compute; reflexivity|].
  split; [vm_compute; reflexivity|].
  intros lo sp. unfold regular. simpl.
  replace (-120 <? -60) with true by reflexivity.
  replace (0 <=? -120) with false by reflexivity.
  simpl. rewrite !andb_false_r. reflexivity.
Qed.

(** *** Periods that lie behind the local time do not matter *)

Lemma parse_go_behind (floor target : Z) (old : list (Z * Z))
    (untilPrev offsetPrev : Z) (recent : list (Z * Z)) (last : Z) :
  forall prev,
    floor <= prev ->
    behind floor target (old ++ [(untilPrev, offsetPrev)]) ->
    parse_go prev ((old ++ [(untilPrev, offsetPrev)]) ++ recent) last
      target
    = parse_go offsetPrev recent last target.
Proof.
  unfold behind.
  induction old as [|[until offset] old IH]; intros prev Hprev Hbehind;
    simpl in *.
  - apply Forall_cons in Hbehind as [[Hfloor Hend] _]. simpl in *.
    assert (Hskip : (target
                     <? untilPrev
                        - (if prev <? offsetPrev then prev else offsetPrev)
                          * MS_PER_MINUTE) = false).
    { apply Z.ltb_ge. unfold MS_PER_MINUTE in *.
      destruct (prev <? offsetPrev); lia. }
    rewrite Hskip. reflexivity.
  - apply Forall_cons in Hbehind as [[Hfloor Hend] Hrest]. simpl in *.
    assert (Hskip : (target
                     <? until
                        - (if prev <? offset then prev else offset)
                          * MS_PER_MINUTE) = false).
    { apply Z.ltb_ge. unfold MS_PER_MINUTE in *.
      destruct (prev <? offset); lia. }
    rewrite Hskip. apply IH; assumption.
Qed.

Lemma offset_go_behind (ps rest : list (Z * Z)) (last u : Z) :
  Forall (fun p => p.1 <= u) ps ->
  offset_go (ps ++ rest) last u = offset_go rest last u.
Proof.
  induction ps as [|[until offset] ps IH]; intros Hall; simpl;
    [reflexivity|].
  apply Forall_cons in Hall as [Hu Hall]. simpl in Hu.
  assert (Hge : (u <? until) = false) by (apply Z.ltb_ge; exact Hu).
  rewrite Hge. apply IH, Hall.
Qed.

Lemma shown_after_behind (floor target : Z) (ps rest : list (Z * Z))
    (last u : Z) :
  behind floor target ps ->
  u - offset_go (ps ++ rest) last u * MS_PER_MINUTE = target ->
  Forall (fun p => p.1 <= u) ps.
Proof.
  unfold behind.
  induction ps as [|[until offset] ps IH]; intros Hbehind Hshow;
    [constructor|].
  apply Forall_cons in Hbehind as [[Hfloor Hend] Hrest]. simpl in *.
  destruct (u <? until) eqn:Hin.
  - apply Z.ltb_lt in Hin. unfold MS_PER_MINUTE in *. lia.
  - apply Z.ltb_ge in Hin. constructor; [exact Hin|].
    apply IH; assumption.
Qed.

(** In a zone that is regular around a local time that exists, the
    library picks an offset that is in force at the instant obtained
    with it. *)
Lemma parse_roundtrip_around (lo sp : Z) (z : Zone) (target : Z) :
  regularAround lo sp z target ->
  localExists z target ->
  utcOffset z (target + parse z target * MS_PER_MINUTE) = parse z target.
Proof.
  intros [Hreg|(floor & old & untilPrev & offsetPrev & recent
                & Hperiods & Hfloor & Hbehind & Hspread & Hreg)] Hex.
  - apply (parse_roundtrip lo sp z target Hreg Hex).
  - destruct Hex as [u Hu]. unfold toLocal, utcOffset in Hu.
    unfold utcOffset, parse. rewrite Hperiods in *.
    assert (Hsplit : (old ++ (untilPrev, offsetPrev) :: recent)%list
                     = ((old ++ [(untilPrev, offsetPrev)]) ++ recent)%list)
      by (rewrite <- app_assoc; reflexivity).
    rewrite Hsplit in *.
    assert (Hparse :
              match ((old ++ [(untilPrev, offsetPrev)]) ++ recent)%list with
              | [] => lastOffset z
              | (_, offset) :: _ =>
                  parse_go offset
                    ((old ++ [(untilPrev, offsetPrev)]) ++ recent)
                    (lastOffset z) target
              end
              = parse_go offsetPrev recent (lastOffset z) target).
    { pose proof Hbehind as Hb. unfold behind in Hb.
      destruct old as [|[until offset] old']; simpl in Hb |- *.
      - apply Forall_cons in Hb as [[Hf _] _]. simpl in Hf.
        apply (parse_go_behind floor target [] untilPrev offsetPrev
                 recent (lastOffset z) offsetPrev Hf Hbehind).
      - apply Forall_cons in Hb as [[Hf _] _]. simpl in Hf.
        apply (parse_go_behind floor target ((until, offset) :: old')
                 untilPrev offsetPrev recent (lastOffset z) offset Hf
                 Hbehind). }
    rewrite Hparse.
    pose proof (shown_after_behind floor target _ recent (lastOffset z) u
                  Hbehind Hu) as Hafter.
    rewrite (offset_go_behind _ recent _ u Hafter) in Hu.
    assert (HuPrev : untilPrev <= u).
    { apply Forall_app in Hafter as [_ Hlast].
      apply Forall_cons in Hlast as [Hlast _]. exact Hlast. }
    assert (HbPrev : floor <= offsetPrev
                     /\ untilPrev - floor * MS_PER_MINUTE <= target).
    { unfold behind in Hbehind.
      apply Forall_app in Hbehind as [_ Hlast].
      apply Forall_cons in Hlast as [Hlast _]. exact Hlast. }
    unbool.
    destruct (parse_go_sound lo sp recent (lastOffset z) target
                offsetPrev untilPrev Hreg) as [Hlower Hforce].
    { lia. }
    { unfold MS_PER_MINUTE in *. lia. }
    { exists u. split; [exact HuPrev|exact Hu]. }
    set (r := parse_go offsetPrev recent (lastOffset z) target) in *.
    pose proof (offset_go_inSpread lo sp recent (lastOffset z) _ _ Hreg
                  (target + r * MS_PER_MINUTE)) as Hr.
    rewrite Hforce in Hr.
    rewrite offset_go_behind; [exact Hforce|].
    apply Forall_app. split.
    + unfold behind in Hbehind.
      apply Forall_app in Hbehind as [Hold _].
      eapply Forall_impl; [exact Hold|].
      intros [until offset] [_ Hend]. simpl in *.
      unfold MS_PER_MINUTE in *. lia.
    + constructor; [exact Hlower|constructor].
Qed.

Lemma toLocal_parse_around (lo sp : Z) (z : Zone) (target : Z) :
  regularAround lo sp z target ->
  localExists z target ->
  toLocal z (target + parse z target * MS_PER_MINUTE) = target.
Proof.
  intros Hreg Hex. unfold toLocal.
  rewrite (parse_roundtrip_around lo sp z target Hreg Hex). lia.
Qed.

(** New York at 08:00 of any date: the offset the library picks is the
    one in force at the instant that shows 08:00, and it is one of the
    two the table has. *)
Lemma new_york_morning_pick (today u : Z) :
  toLocal America_New_York u = today * MS_PER_DAY + 8 * MS_PER_HOUR ->
  parse America_New_York (today * MS_PER_DAY + 8 * MS_PER_HOUR)
  = utcOffset America_New_York u
  /\ (utcOffset America_New_York u = 240
      \/ utcOffset America_New_York u = 300).
Proof.
  unfold toLocal, utcOffset, parse, America_New_York, MS_PER_DAY,
    MS_PER_HOUR, MS_PER_MINUTE. simpl periods. simpl lastOffset.
  unfold offset_go, parse_go, MS_PER_MINUTE.
  intros H.
  repeat match goal with
    | |- context [if ?c then _ else _] => destruct c eqn:?
    | H : context [if ?c then _ else _] |- _ => destruct c eqn:?
    end;
    repeat match goal with
      | H : (_ <? _) = true |- _ => apply Z.ltb_lt in H
      | H : (_ <? _) = false |- _ => apply Z.ltb_ge in H
      end;
    try (split; [lia|lia]); try lia.
Qed.

End ZoneProps.

(** ** The trigger converter *)

Module ConverterProps.
Import Moment Converter Scheduler Scenarios ZoneProps.

(** Every well-formed preference is split and read back to its hour
    and minute (checked on the 24 * 60 strings). *)
Lemma hhmm_table :
  forallb
    (fun h =>
       forallb
         (fun m =>
            let parts := split ":" (hhmm (Z.of_nat h) (Z.of_nat m)) in
            match parseHHmm (nth 0 parts "undefined" +:+ ":"
                             +:+ nth 1 parts "undefined") with
            | Some t =>
                t =? Z.of_nat h * MS_PER_HOUR + Z.of_nat m * MS_PER_MINUTE
            | None => false
            end)
         (seq 0 60))
    (seq 0 24) = true.
Proof. vm_compute. reflexivity. Qed.

Lemma hhmm_parsed (h m : Z) :
  0 <= h < 24 -> 0 <= m < 60 ->
  let parts := split ":" (hhmm h m) in
  parseHHmm (nth 0 parts "undefined" +:+ ":" +:+ nth 1 parts "undefined")
  = Some (h * MS_PER_HOUR + m * MS_PER_MINUTE).
Proof.
  intros Hh Hm.
  pose proof hhmm_table as Htab.
  rewrite forallb_forall in Htab.
  specialize (Htab (Z.to_nat h)).
  rewrite forallb_forall in Htab.
  assert (Hinh : In (Z.to_nat h) (seq 0 24)) by (apply in_seq; lia).
  assert (Hinm : In (Z.to_nat m) (seq 0 60)) by (apply in_seq; lia).
  specialize (Htab Hinh (Z.to_nat m) Hinm).
  rewrite !Z2Nat.id in Htab by lia.
  cbv zeta in Htab |- *.
  destruct (parseHHmm _) as [t|]; [|discriminate Htab].
  apply Z.eqb_eq in Htab. congruence.
Qed.

Lemma clock_of_target (day h m : Z) :
  0 <= h < 24 -> 0 <= m < 60 ->
  let t := day * MS_PER_DAY + h * MS_PER_HOUR + m * MS_PER_MINUTE in
  t / MS_PER_DAY = day
  /\ (t / MS_PER_HOUR) mod 24 = h
  /\ (t / MS_PER_MINUTE) mod 60 = m.
Proof.
  unfold MS_PER_DAY, MS_PER_HOUR, MS_PER_MINUTE. intros Hh Hm.
  cbv zeta. repeat split; Z.div_mod_to_equations; lia.
Qed.

(** The cron fields of a local time moved by an offset. *)
Lemma fields_moved_by_offset (today h m o : Z) :
  let u :=
    today * MS_PER_DAY + h * MS_PER_HOUR + m * MS_PER_MINUTE
    + o * MS_PER_MINUTE in
  (u / MS_PER_MINUTE) mod 60 = (m + o) mod 60
  /\ (u / MS_PER_HOUR) mod 24 = ((60 * h + m + o) / 60) mod 24.
Proof.
  cbv zeta. split.
  - unfold MS_PER_DAY, MS_PER_HOUR, MS_PER_MINUTE.
    Z.div_mod_to_equations. lia.
  - assert (E : (today * MS_PER_DAY + h * MS_PER_HOUR + m * MS_PER_MINUTE
                 + o * MS_PER_MINUTE) / MS_PER_HOUR
                = (60 * h + m + o) / 60 + today * 24).
    { unfold MS_PER_DAY, MS_PER_HOUR, MS_PER_MINUTE.
      Z.div_mod_to_equations. lia. }
    rewrite E. apply Z_mod_plus_full.
Qed.

(** An instant on a minute boundary that shows a date and a time of day
    shows the local time made of them. *)
Lemma shown_local_time (k off today h m : Z) :
  0 <= h < 24 -> 0 <= m < 60 ->
  let l := k * MS_PER_MINUTE - off * MS_PER_MINUTE in
  l / MS_PER_DAY = today ->
  (l / MS_PER_HOUR) mod 24 = h ->
  (l / MS_PER_MINUTE) mod 60 = m ->
  l = today * MS_PER_DAY + h * MS_PER_HOUR + m * MS_PER_MINUTE.
Proof.
  unfold MS_PER_DAY, MS_PER_HOUR, MS_PER_MINUTE. cbv zeta.
  intros Hh Hm Hday Hhour Hmin.
  Z.div_mod_to_equations. lia.
Qed.

(** Every expression with a minute and an hour in range is accepted by
    the cron library (checked on the 60 * 24 expressions). *)
Lemma cronText_table :
  forallb
    (fun hour =>
       forallb
         (fun minute =>
            Cron.validate (cronText (Z.of_nat minute) (Z.of_nat hour)))
         (seq 0 60))
    (seq 0 24) = true.
Proof. vm_compute. reflexivity. Qed.

Lemma cronText_valid (minute hour : Z) :
  0 <= hour < 24 -> 0 <= minute < 60 ->
  Cron.validate (cronText minute hour) = true.
Proof.
  intros Hh Hm. pose proof cronText_table as Htab.
  rewrite forallb_forall in Htab.
  assert (Hinh : In (Z.to_nat hour) (seq 0 24)) by (apply in_seq; lia).
  specialize (Htab (Z.to_nat hour) Hinh).
  rewrite forallb_forall in Htab.
  assert (Hinm : In (Z.to_nat minute) (seq 0 60)) by (apply in_seq; lia).
  specialize (Htab (Z.to_nat minute) Hinm).
  rewrite !Z2Nat.id in Htab by lia. exact Htab.
Qed.

Section WithZoneData.
Variable getZone : string -> option Zone.

(** The instant read for a well-formed preference in a known zone:
    today's date in the zone at the preferred time, moved by the
    offset the library picks for that local time. *)
Lemma utcTime_known (tz : string) (z : Zone) (h m now : Z) :
  getZone tz = Some z ->
  0 <= h < 24 -> 0 <= m < 60 ->
  let target :=
    todayInUserTz getZone tz now * MS_PER_DAY
    + h * MS_PER_HOUR + m * MS_PER_MINUTE in
  utcTime getZone (hhmm h m) tz now
  = Some (target + parse z target * MS_PER_MINUTE).
Proof.
  intros Hz Hh Hm. unfold utcTime, momentTzParse.
  rewrite (hhmm_parsed h m Hh Hm), Hz. simpl.
  rewrite !Z.add_assoc. reflexivity.
Qed.

(** The converter answers for every input: the text with [NaN] fields
    when the moment is invalid, otherwise an hour and a minute in
    range. *)
Lemma convertToCronTime_shape (timePreference tz : string) (now : Z) :
  convertToCronTime getZone timePreference tz now = "NaN NaN * * *"
  \/ exists hour minute,
       0 <= hour < 24 /\ 0 <= minute < 60
       /\ convertToCronTime getZone timePreference tz now
          = cronText minute hour.
Proof.
  unfold convertToCronTime.
  destruct (utcTime getZone timePreference tz now) as [u|].
  - right. exists ((u / MS_PER_HOUR) mod 24), ((u / MS_PER_MINUTE) mod 60).
    split; [apply Z.mod_pos_bound; lia|].
    split; [apply Z.mod_pos_bound; lia|reflexivity].
  - left. reflexivity.
Qed.

(** A zone without data is treated as UTC. *)
Lemma convertToCronTime_unknown_zone (timePreference tz : string)
    (now : Z) :
  getZone tz = None ->
  convertToCronTime getZone timePreference tz now
  = convertToCronTime zoneData timePreference "UTC" now.
Proof.
  intros Hz. unfold convertToCronTime, utcTime, momentTzParse,
    todayInUserTz. rewrite Hz. simpl.
  unfold toLocal, utcOffset. simpl.
  replace (now - 0 * MS_PER_MINUTE) with now by lia.
  destruct (parseHHmm _) as [t|]; [|reflexivity].
  unfold parse. simpl.
  replace (now / MS_PER_DAY * MS_PER_DAY + t + 0 * MS_PER_MINUTE)
    with (now / MS_PER_DAY * MS_PER_DAY + t) by lia.
  reflexivity.
Qed.

(** The expression has its [NaN] fields exactly when the library
    cannot read the two fields as a time of day. *)
Lemma convertToCronTime_nan (timePreference tz : string) (now : Z) :
  let parts := split ":" timePreference in
  parseHHmm (nth 0 parts "undefined" +:+ ":" +:+ nth 1 parts "undefined")
  = None
  <-> convertToCronTime getZone timePreference tz now = "NaN NaN * * *".
Proof.
  cbv zeta. unfold convertToCronTime, utcTime, momentTzParse.
  destruct (parseHHmm _) as [t|]; [|split; reflexivity].
  split; [discriminate|]. intros Hnan. exfalso.
  assert (Hvalid : forall u,
            Cron.validate
              (showNumber (minutes (Some u)) +:+ " "
               +:+ showNumber (hours (Some u)) +:+ " * * *") = true).
  { intros u.
    apply (cronText_valid ((u / MS_PER_MINUTE) mod 60)
             ((u / MS_PER_HOUR) mod 24));
      apply Z.mod_pos_bound; lia. }
  destruct (getZone tz); cbv zeta in Hnan;
    match type of Hnan with
    | ?e = _ =>
        assert (Hv : Cron.validate e = true) by apply Hvalid;
        rewrite Hnan in Hv; vm_compute in Hv; discriminate Hv
    end.
Qed.

(** Without zone data the fields are those of the time of day read. *)
Lemma convertToCronTime_unknown_zone_fields (timePreference tz : string)
    (now timeOfDay : Z) :
  let parts := split ":" timePreference in
  parseHHmm (nth 0 parts "undefined" +:+ ":" +:+ nth 1 parts "undefined")
  = Some timeOfDay ->
  getZone tz = None ->
  convertToCronTime getZone timePreference tz now
  = cronText ((timeOfDay / MS_PER_MINUTE) mod 60)
      ((timeOfDay / MS_PER_HOUR) mod 24).
Proof.
  cbv zeta. intros Hread Hz.
  unfold convertToCronTime, utcTime, momentTzParse, todayInUserTz.
  rewrite Hread, Hz. cbv zeta. unfold cronText, minutes, hours.
  simpl option_map.
  assert (Hmin : ((now / MS_PER_DAY * MS_PER_DAY + timeOfDay)
                  / MS_PER_MINUTE) mod 60
                 = (timeOfDay / MS_PER_MINUTE) mod 60).
  { unfold MS_PER_DAY, MS_PER_MINUTE. Z.div_mod_to_equations. lia. }
  assert (Hhour : ((now / MS_PER_DAY * MS_PER_DAY + timeOfDay)
                   / MS_PER_HOUR) mod 24
                  = (timeOfDay / MS_PER_HOUR) mod 24).
  { unfold MS_PER_DAY, MS_PER_HOUR. Z.div_mod_to_equations. lia. }
  rewrite Hmin, Hhour. reflexivity.
Qed.

(** A delivery time the library cannot read makes [cron.schedule]
    throw. *)
Lemma createUserCronJob_unreadable (user : User) (timePreference : string)
    (now : Z) :
  delivery_time user = Some timePreference ->
  let parts := split ":" timePreference in
  parseHHmm (nth 0 parts "undefined" +:+ ":" +:+ nth 1 parts "undefined")
  = None ->
  createUserCronJob getZone user now = None.
Proof.
  cbv zeta. intros Htime Hread. unfold createUserCronJob. rewrite Htime.
  apply (convertToCronTime_nan timePreference (text (timezone user)) now)
    in Hread.
  rewrite Hread. reflexivity.
Qed.

(** A user whose cron job cannot be created is passed over. *)
Lemma syncResume_skips (now : Z) (u : User) (us1 us2 : list User)
    (s : State) :
  createUserCronJob getZone u now = None ->
  syncResume getZone now (us1 ++ u :: us2) s
  = syncResume getZone now (us1 ++ us2) s.
Proof.
  intros Hnone. unfold syncResume.
  rewrite !foldl_app. simpl. f_equal.
  apply SyncProps.scheduleUser_unschedulable.
  unfold schedulable. rewrite Hnone. apply andb_false_r.
Qed.

End WithZoneData.
End ConverterProps.

Module ConverterClaims.
Import Moment Converter Scheduler Scenarios ZoneProps ConverterProps.

(** An instant on a minute boundary is the firing instant of the cron
    fields read from it, on its own UTC day. *)
Lemma cronInstant_of_fields (k : Z) :
  let u := k * MS_PER_MINUTE in
  cronInstant (u / MS_PER_DAY) ((u / MS_PER_HOUR) mod 24)
    ((u / MS_PER_MINUTE) mod 60) = u.
Proof.
  unfold cronInstant, MS_PER_DAY, MS_PER_HOUR, MS_PER_MINUTE. cbv zeta.
  Z.div_mod_to_equations. lia.
Qed.




(** C6, as stated, fails: for a timezone without zone data the
    converter returns an expression, and the cycle installs a trigger
    for that user. *)
Lemma unknown_timezone_is_scheduled :
  zoneData "Mars/Phobos" = None
  /\ convertToCronTime zoneData "08:00" "Mars/Phobos" summer2024
     = "0 8 * * *"
  /\ activeTasks
       (syncAllSchedules zoneData summer2024 (QueryData (Some [carol]))
          initial) !! "U3" = Some 0%nat.
Proof. vm_compute. repeat split. Qed.

(** C6, amended: for a time string and a timezone name the converter
    has no error path.  The expression is ["NaN NaN * * *"] exactly when
    the library cannot read the first two fields of the time string as
    a time of day, and otherwise it has a minute and an hour in range; a
    timezone without zone data is read as UTC, the fields being those of
    the time of day read.  So, without zone data, 25:00 gives the
    [NaN] expression, while 24:00 is read as 00:00 and 123:45 as 12:45.
    When the creation of a user's cron job throws, the cycle passes
    that user over and schedules the others as if the entry were not
    there; it throws for a delivery time of [null] and for one the
    library cannot read. *)
Theorem converter_total_sync_skips (getZone : string -> option Zone)
    (now : Z) :
  (forall timePreference tz,
      let parts := split ":" timePreference in
      let reading :=
        parseHHmm (nth 0 parts "undefined" +:+ ":"
                   +:+ nth 1 parts "undefined") in
      (reading = None
       <-> convertToCronTime getZone timePreference tz now
           = "NaN NaN * * *")
      /\ (forall timeOfDay,
            reading = Some timeOfDay ->
            (exists hour minute,
                0 <= hour < 24 /\ 0 <= minute < 60
                /\ convertToCronTime getZone timePreference tz now
                   = cronText minute hour)
            /\ (getZone tz = None ->
                convertToCronTime getZone timePreference tz now
                = cronText ((timeOfDay / MS_PER_MINUTE) mod 60)
                    ((timeOfDay / MS_PER_HOUR) mod 24)))
      /\ (getZone tz = None ->
          convertToCronTime getZone timePreference tz now
          = convertToCronTime zoneData timePreference "UTC" now))
  /\ (forall tz,
        getZone tz = None ->
        convertToCronTime getZone "25:00" tz now = "NaN NaN * * *"
        /\ convertToCronTime getZone "24:00" tz now = "0 0 * * *"
        /\ convertToCronTime getZone "123:45" tz now = "45 12 * * *"
        /\ convertToCronTime getZone "08:00" tz now = "0 8 * * *")
  /\ (forall u us1 us2 s,
        createUserCronJob getZone u now = None ->
        syncResume getZone now (us1 ++ u :: us2) s
        = syncResume getZone now (us1 ++ us2) s)
  /\ (forall u,
        match delivery_time u with
        | None => True
        | Some timePreference =>
            let parts := split ":" timePreference in
            parseHHmm (nth 0 parts "undefined" +:+ ":"
                       +:+ nth 1 parts "undefined") = None
        end ->
        createUserCronJob getZone u now = None).
Proof.
  split; [|split; [|split]].
  - intros timePreference tz. cbv zeta. split; [|split].
    + apply convertToCronTime_nan.
    + intros timeOfDay Hread. split.
      * destruct (convertToCronTime_shape getZone timePreference tz now)
          as [Hnan|Hfields]; [|exact Hfields].
        apply (convertToCronTime_nan getZone timePreference tz now)
          in Hnan. cbv zeta in Hnan. congruence.
      * apply convertToCronTime_unknown_zone_fields, Hread.
    + apply convertToCronTime_unknown_zone.
  - intros tz Hz. split; [|split; [|split]].
    + apply (convertToCronTime_nan getZone "25:00" tz now). reflexivity.
    + apply (convertToCronTime_unknown_zone_fields getZone "24:00" tz now
               86400000); [reflexivity|exact Hz].
    + apply (convertToCronTime_unknown_zone_fields getZone "123:45" tz now
               45900000); [reflexivity|exact Hz].
    + apply (convertToCronTime_unknown_zone_fields getZone "08:00" tz now
               28800000); [reflexivity|exact Hz].
  - intros u us1 us2 s. apply syncResume_skips.
  - intros u Hu. destruct (delivery_time u) as [timePreference|] eqn:Htime.
    + apply (createUserCronJob_unreadable getZone u timePreference now
               Htime Hu).
    + unfold createUserCronJob. rewrite Htime. reflexivity.
Qed.

Lemma converter_total_sync_skips_witness :
  (zoneData "Mars/Phobos" = None
   /\ convertToCronTime zoneData "25:00" "Mars/Phobos" summer2024
      = "NaN NaN * * *"
   /\ convertToCronTime zoneData "24:00" "Mars/Phobos" summer2024
      = "0 0 * * *"
   /\ convertToCronTime zoneData "123:45" "Mars/Phobos" summer2024
      = "45 12 * * *"
   /\ convertToCronTime zoneData "08:00" "Mars/Phobos" summer2024
      = "0 8 * * *")
  /\ (createUserCronJob zoneData bob summer2024 = None
      /\ syncResume zoneData summer2024 ([alice] ++ bob :: [carol]) initial
         = syncResume zoneData summer2024 ([alice] ++ [carol]) initial).
Proof.
  split; (split; [reflexivity|]).
  - apply (proj1 (proj2 (converter_total_sync_skips zoneData summer2024))).
    reflexivity.
  - apply (proj1 (proj2 (proj2
                           (converter_total_sync_skips zoneData
                              summer2024)))).
    reflexivity.
Defined.

End ConverterClaims.

(** ** The generation coordinator *)

Module GeneratorProps.
Import Generator Scenarios.

(** A call that enters while a generation for its key is in flight and
    the cache has nothing fresh awaits that generation and starts
    none. *)
Lemma enter_awaits_in_flight (now : Z) (userEmail : string)
    (userId : option string) (s : State) (promise : nat) :
  briefCache s !! cacheKey userEmail userId = None ->
  inFlight s !! cacheKey userEmail userId = Some promise ->
  enter now userEmail userId s
  = (s, AwaitsInFlight (cacheKey userEmail userId) promise).
Proof. intros Hcache Hfly. unfold enter. rewrite Hcache, Hfly. reflexivity. Qed.

(** A call that enters within the cache duration of an entry returns
    it and changes nothing. *)
Lemma enter_returns_cached (now : Z) (userEmail : string)
    (userId : option string) (s : State) (c : CachedBrief) :
  briefCache s !! cacheKey userEmail userId = Some c ->
  fresh now (timestamp c) = true ->
  enter now userEmail userId s = (s, Returns (brief c)).
Proof.
  intros Hcache Hfresh. unfold enter. rewrite Hcache, Hfresh.
  reflexivity.
Qed.

(** Entering never registers anything in flight: the entry is made
    only after the preference lookup. *)
Lemma enter_keeps_inFlight (now : Z) (userEmail : string)
    (userId : option string) (s : State) :
  inFlight (enter now userEmail userId s).1 = inFlight s
  /\ generations (enter now userEmail userId s).1 = generations s.
Proof.
  unfold enter.
  destruct (briefCache s !! cacheKey userEmail userId) as [c|];
    [destruct (fresh now (timestamp c))|];
    destruct (inFlight s !! cacheKey userEmail userId);
    split; reflexivity.
Qed.

(** Two calls that both enter before either has resumed from its
    preference lookup each start a generation. *)
Lemma entries_before_start_generate_twice
    (isValidZone : string -> bool) (now1 now2 now3 now4 : Z)
    (preferences3 preferences4 : option User)
    (userEmail : string) (userId : option string) (s : State) :
  briefCache s !! cacheKey userEmail userId = None ->
  inFlight s !! cacheKey userEmail userId = None ->
  let key := cacheKey userEmail userId in
  let r1 := enter now1 userEmail userId s in
  let r2 := enter now2 userEmail userId r1.1 in
  let r3 := afterPreferences isValidZone now3 preferences3 key r2.1 in
  let r4 := afterPreferences isValidZone now4 preferences4 key r3.1 in
  r1.2 = AwaitsPreferences key
  /\ r2.2 = AwaitsPreferences key
  /\ generations r4.1 = (generations s ++ [key; key])%list.
Proof.
  intros Hcache Hfly. cbv zeta.
  assert (H1 : enter now1 userEmail userId s
               = (s, AwaitsPreferences (cacheKey userEmail userId)))
    by (unfold enter; rewrite Hcache, Hfly; reflexivity).
  assert (H2 : enter now2 userEmail userId s
               = (s, AwaitsPreferences (cacheKey userEmail userId)))
    by (unfold enter; rewrite Hcache, Hfly; reflexivity).
  rewrite H1. simpl. rewrite H2. simpl.
  rewrite <- app_assoc. repeat split.
Qed.

(** C5: two calls for the same key, the second entering while the first
    is suspended at its preference lookup (which finds no preferences,
    so that the fallback zone is used).  Both find the cache and the
    in-flight map empty, and [generateBriefContent] is invoked twice. *)
Theorem concurrent_calls_generate_twice :
  let key := cacheKey "alice@example.com" None in
  let '(s1, first) := enter 0 "alice@example.com" None initial in
  let '(s2, second) := enter 5 "alice@example.com" None s1 in
  let '(s3, first') := afterPreferences intlZone 100 None key s2 in
  let '(s4, second') := afterPreferences intlZone 105 None key s3 in
  first = AwaitsPreferences key
  /\ second = AwaitsPreferences key
  /\ first' = AwaitsGeneration key 0 (Some 100)
  /\ second' = AwaitsGeneration key 1 (Some 105)
  /\ generations s4 = [key; key].
Proof. vm_compute. repeat split. Qed.

End GeneratorProps.

(** * Further properties *)

(** ** Shutdown, status and the map of triggers *)

Module SchedulerExtras.
Import Moment Converter Scheduler SchedulerOps SyncProps.

(** X1: [stopAllTasks] empties the map, so that the status reports no
    active task, and it stops exactly the tasks the map held: a task
    whose handle the map did not hold is left as it was. *)
Theorem stopAllTasks_stops_exactly_mapped (s : State) :
  activeTasks (stopAllTasks s) = ∅
  /\ statusActiveTasks (stopAllTasks s) = 0%nat
  /\ forall h,
       tasks (stopAllTasks s) !! h
       = (fun t => if mapped s h then stop t else t) <$> tasks s !! h.
Proof.
  split; [reflexivity|]. split; [reflexivity|].
  intros h. unfold stopAllTasks, mapped. simpl.
  destruct (decide (h ∈ (map_to_list (activeTasks s)).*2)) as [Hin|Hnot].
  - rewrite (stopHandles_lookup_in _ _ _ Hin).
    rewrite bool_decide_eq_true_2 by exact Hin. reflexivity.
  - rewrite (stopHandles_lookup_notin _ _ _ Hnot).
    rewrite bool_decide_eq_false_2 by exact Hnot.
    destruct (tasks s !! h); reflexivity.
Qed.

(** X2: a trigger the map has lost survives the shutdown.  After two
    interleaved cycles the first task runs outside the map, and
    [stopAllTasks] leaves it running. *)
Theorem stopAllTasks_misses_leaked (s : State) (h : nat) (t : Task) :
  tasks s !! h = Some t ->
  running t = true ->
  (forall uid, activeTasks s !! uid <> Some h) ->
  tasks (stopAllTasks s) !! h = Some t
  /\ h ∈ runningFor (stopAllTasks s) (text (user_id (task_user t))).
Proof.
  intros Hlook Hrun Hfree.
  assert (Hnot : h ∉ (map_to_list (activeTasks s)).*2).
  { intros Hin. apply list_elem_of_fmap in Hin as [[uid h'] [Heq Hin]].
    simpl in Heq. subst h'. apply elem_of_map_to_list in Hin.
    exact (Hfree uid Hin). }
  assert (Hkeep : tasks (stopAllTasks s) !! h = Some t).
  { unfold stopAllTasks. simpl.
    rewrite (stopHandles_lookup_notin _ _ _ Hnot). exact Hlook. }
  split; [exact Hkeep|].
  unfold runningFor. apply list_elem_of_In, filter_In. split.
  - apply in_seq. apply lookup_lt_Some in Hkeep. lia.
  - rewrite Hkeep, Hrun. simpl. apply String.eqb_refl.
Qed.

Lemma stopAllTasks_misses_leaked_witness :
  exists t,
    tasks leakedState !! 0%nat = Some t
    /\ running t = true
    /\ (forall uid, activeTasks leakedState !! uid <> Some 0%nat)
    /\ tasks (stopAllTasks leakedState) !! 0%nat = Some t
    /\ 0%nat ∈ runningFor (stopAllTasks leakedState)
                 (text (user_id (task_user t))).
Proof.
  eexists. split; [vm_compute; reflexivity|]. split; [reflexivity|].
  assert (Hfree : forall uid, activeTasks leakedState !! uid <> Some 0%nat).
  { intros uid Hu.
    assert (Hin : (uid, 0%nat) ∈ map_to_list (activeTasks leakedState))
      by (apply elem_of_map_to_list; exact Hu).
    vm_compute in Hin.
    apply list_elem_of_In in Hin. destruct Hin as [Heq|[]].
    discriminate Heq. }
  split; [exact Hfree|].
  apply (stopAllTasks_misses_leaked leakedState 0%nat);
    [vm_compute; reflexivity|reflexivity|exact Hfree].
Defined.

Section WithZoneData.
Variable getZone : string -> option Zone.

Lemma scheduleUser_consistent (now : Z) (s : State) (user : User) :
  mapConsistent getZone now s ->
  mapConsistent getZone now (scheduleUser getZone now s user).
Proof.
  intros Hs. destruct (schedulable getZone now user) eqn:Hsch;
    [|rewrite scheduleUser_unschedulable by exact Hsch; exact Hs].
  unfold schedulable in Hsch. unfold scheduleUser.
  destruct (truthy (user_id user)); simpl in *; [|discriminate].
  destruct (truthy (delivery_time user)); simpl in *; [|discriminate].
  destruct (truthy (timezone user)); simpl in *; [|discriminate].
  destruct (createUserCronJob getZone user now) as [task|] eqn:Hjob;
    [|discriminate].
  unfold createUserCronJob in Hjob.
  destruct (delivery_time user) as [timePreference|] eqn:Htime;
    [|discriminate].
  destruct (Cron.validate _); [|discriminate].
  injection Hjob as <-.
  intros uid h Hlook. simpl in Hlook.
  destruct (decide (text (user_id user) = uid)) as [Heq|Hne].
  - rewrite Heq, lookup_insert_eq in Hlook. injection Hlook as <-.
    eexists. simpl. rewrite lookup_app_r by lia.
    rewrite Nat.sub_diag. simpl. split; [reflexivity|].
    split; [reflexivity|]. split; [exact Heq|].
    simpl. rewrite Htime. reflexivity.
  - rewrite lookup_insert_ne in Hlook by exact Hne.
    destruct (Hs uid h Hlook) as (t & Ht & Hrest).
    exists t. simpl. split; [|exact Hrest].
    rewrite lookup_app_l; [exact Ht|]. apply lookup_lt_Some in Ht. exact Ht.
Qed.

Lemma syncResume_consistent (now : Z) (users : list User) (s : State) :
  mapConsistent getZone now s ->
  mapConsistent getZone now (syncResume getZone now users s).
Proof.
  unfold syncResume. revert s.
  induction users as [|u us IH]; intros s Hs; simpl; [exact Hs|].
  apply IH, scheduleUser_consistent, Hs.
Qed.

(** X3: after a cycle that nothing interleaved with, whatever the state
    before and whatever the fetch gave, every entry of the map refers to
    a running task created for that user id, whose expression is the
    conversion of that entry's delivery time and timezone. *)
Theorem sync_map_consistent (now : Z) (r : Response) (s : State) :
  mapConsistent getZone now (syncAllSchedules getZone now r s).
Proof.
  assert (Hbegin : mapConsistent getZone now (syncBegin s)).
  { intros uid h Hlook. simpl in Hlook. rewrite lookup_empty in Hlook.
    discriminate Hlook. }
  unfold syncAllSchedules.
  destruct (getActiveUsers r) as [users|]; [|exact Hbegin].
  apply syncResume_consistent, Hbegin.
Qed.

Lemma syncBegin_all_stopped (s : State) (h : nat) (t : Task) :
  noLeak s -> tasks (syncBegin s) !! h = Some t -> running t = false.
Proof.
  intros Hleak Hlook. unfold syncBegin in Hlook. simpl in Hlook.
  destruct (decide (h ∈ (map_to_list (activeTasks s)).*2)) as [Hin|Hnot].
  - rewrite (stopHandles_lookup_in _ _ _ Hin) in Hlook.
    destruct (tasks s !! h); inversion Hlook. reflexivity.
  - rewrite (stopHandles_lookup_notin _ _ _ Hnot) in Hlook.
    destruct (running t) eqn:Hrun; [|reflexivity].
    exfalso. apply Hnot. apply list_elem_of_fmap.
    exists (text (user_id (task_user t)), h). split; [reflexivity|].
    apply elem_of_map_to_list. apply Hleak; assumption.
Qed.

Lemma scheduleUser_noLeak (now : Z) (s : State) (user : User) :
  noLeak s ->
  (schedulable getZone now user = true ->
   activeTasks s !! text (user_id user) = None) ->
  noLeak (scheduleUser getZone now s user).
Proof.
  intros Hs Hfree. destruct (schedulable getZone now user) eqn:Hsch;
    [|rewrite scheduleUser_unschedulable by exact Hsch; exact Hs].
  specialize (Hfree eq_refl).
  unfold schedulable in Hsch. unfold scheduleUser.
  destruct (truthy (user_id user)); simpl in *; [|discriminate].
  destruct (truthy (delivery_time user)); simpl in *; [|discriminate].
  destruct (truthy (timezone user)); simpl in *; [|discriminate].
  destruct (createUserCronJob getZone user now) as [task|] eqn:Hjob;
    [|discriminate].
  unfold createUserCronJob in Hjob.
  destruct (delivery_time user) as [timePreference|] eqn:Htime;
    [|discriminate].
  destruct (Cron.validate _); [|discriminate].
  injection Hjob as <-.
  intros h t Hlook Hrun. simpl in *.
  destruct (decide (h < length (tasks s))%nat) as [Hlt|Hge].
  - rewrite lookup_app_l in Hlook by exact Hlt.
    pose proof (Hs h t Hlook Hrun) as Hmap.
    rewrite lookup_insert_ne; [exact Hmap|].
    intros Heq. rewrite <- Heq, Hfree in Hmap. discriminate Hmap.
  - rewrite lookup_app_r in Hlook by lia.
    destruct (h - length (tasks s))%nat as [|n] eqn:Hdiff;
      simpl in Hlook; [|discriminate Hlook].
    injection Hlook as <-. simpl.
    replace h with (length (tasks s)) by lia.
    apply lookup_insert_eq.
Qed.

Lemma syncResume_noLeak (now : Z) (users : list User) (s : State) :
  noLeak s ->
  NoDup (map (fun u => text (user_id u))
           (List.filter (schedulable getZone now) users)) ->
  (forall u, In u (List.filter (schedulable getZone now) users) ->
             activeTasks s !! text (user_id u) = None) ->
  noLeak (syncResume getZone now users s).
Proof.
  unfold syncResume. revert s.
  induction users as [|u us IH]; intros s Hs Hnodup Hfree; simpl;
    [exact Hs|].
  simpl in Hnodup, Hfree.
  destruct (schedulable getZone now u) eqn:Hsch.
  - simpl in Hnodup. apply NoDup_cons in Hnodup as [Hnotin Hnodup].
    apply IH; [apply scheduleUser_noLeak;
                 [exact Hs|intros _; apply Hfree; left; reflexivity]
              |exact Hnodup|].
    intros v Hv.
    assert (Hdom : text (user_id v)
                   ∉ dom (activeTasks (scheduleUser getZone now s u))).
    { rewrite scheduleUser_dom, Hsch.
      intros Hin. apply elem_of_union in Hin as [Hin|Hin].
      - apply elem_of_dom in Hin as [x Hx].
        rewrite (Hfree v (or_intror Hv)) in Hx. discriminate Hx.
      - apply elem_of_singleton in Hin. apply Hnotin.
        rewrite <- Hin. apply list_elem_of_In.
        apply (in_map (fun u0 => text (user_id u0))), Hv. }
    apply not_elem_of_dom in Hdom. exact Hdom.
  - rewrite scheduleUser_unschedulable by exact Hsch.
    apply IH; assumption.
Qed.

Lemma noLeak_one_running (s : State) (uid : string) :
  noLeak s -> (length (runningFor s uid) <= 1)%nat.
Proof.
  intros Hleak.
  assert (Hnodup : List.NoDup (runningFor s uid))
    by (apply List.NoDup_filter, List.seq_NoDup).
  assert (Hsame : forall a b,
             In a (runningFor s uid) -> In b (runningFor s uid) -> a = b).
  { assert (Hkey : forall a, In a (runningFor s uid) ->
                             activeTasks s !! uid = Some a).
    { intros a Ha. apply filter_In in Ha as [_ Ha].
      destruct (tasks s !! a) as [t|] eqn:Ht; [|discriminate].
      apply andb_true_iff in Ha as [Hrun Hid].
      apply String.eqb_eq in Hid. rewrite <- Hid.
      apply Hleak; assumption. }
    intros a b Ha Hb. apply Hkey in Ha, Hb. congruence. }
  destruct (runningFor s uid) as [|a [|b rest]]; simpl; try lia.
  exfalso. inversion Hnodup as [|? ? Hnotin _]. apply Hnotin.
  rewrite (Hsame a b); [left; reflexivity|left; reflexivity
                       |right; left; reflexivity].
Qed.

(** X4: as long as cycles do not interleave and the fetched users that
    can be scheduled have distinct ids, no trigger is lost: if every
    running task was held by the map before the cycle, then after it
    every running task is held by the map and at most one trigger runs
    for any user. *)
Theorem sync_keeps_one_trigger_per_user (now : Z) (r : Response)
    (s : State) :
  noLeak s ->
  NoDup (map (fun u => text (user_id u))
           (List.filter (schedulable getZone now)
              (default [] (getActiveUsers r)))) ->
  noLeak (syncAllSchedules getZone now r s)
  /\ forall uid,
       (length (runningFor (syncAllSchedules getZone now r s) uid)
        <= 1)%nat.
Proof.
  intros Hleak Hnodup.
  assert (Hbegin : noLeak (syncBegin s)).
  { intros h t Hlook Hrun.
    rewrite (syncBegin_all_stopped s h t Hleak Hlook) in Hrun.
    discriminate Hrun. }
  assert (Hafter : noLeak (syncAllSchedules getZone now r s)).
  { unfold syncAllSchedules.
    destruct (getActiveUsers r) as [users|]; [|exact Hbegin].
    apply syncResume_noLeak; [exact Hbegin|exact Hnodup|].
    intros u _. apply lookup_empty. }
  split; [exact Hafter|].
  intros uid. apply noLeak_one_running, Hafter.
Qed.

End WithZoneData.

Lemma sync_keeps_one_trigger_per_user_witness :
  let r := QueryData (Some [Scenarios.alice; Scenarios.bob;
                            Scenarios.carol]) in
  let s' := syncAllSchedules zoneData Scenarios.summer2024 r initial in
  noLeak initial
  /\ NoDup (map (fun u => text (user_id u))
              (List.filter (schedulable zoneData Scenarios.summer2024)
                 (default [] (getActiveUsers r))))
  /\ noLeak s'
  /\ forall uid, (length (runningFor s' uid) <= 1)%nat.
Proof.
  assert (H0 : noLeak initial).
  { intros h t Hlook _. destruct h; discriminate Hlook. }
  assert (Hnd : NoDup (map (fun u => text (user_id u))
                         (List.filter
                            (schedulable zoneData Scenarios.summer2024)
                            (default []
                               (getActiveUsers
                                  (QueryData (Some [Scenarios.alice;
                                                    Scenarios.bob;
                                                    Scenarios.carol]))))))).
  { vm_compute. repeat constructor; intros Hin;
      repeat (apply elem_of_cons in Hin as [Hin|Hin];
              [discriminate Hin|]); inversion Hin. }
  cbv zeta. split; [exact H0|]. split; [exact Hnd|].
  apply (sync_keeps_one_trigger_per_user zoneData Scenarios.summer2024
           (QueryData (Some [Scenarios.alice; Scenarios.bob;
                             Scenarios.carol])) initial H0 Hnd).
Defined.

End SchedulerExtras.

(** ** Firings: what one firing adds, and what it blocks *)

Module FiringExtras.
Import Store Firing Scheduler SchedulerOps.

Lemma getActiveUsers_have_recipient (r : Response) (users : list User)
    (u : User) :
  getActiveUsers r = Some users -> In u users ->
  truthy (slack_user_id u) = true.
Proof.
  intros Hget Hin. destruct r as [| |[data|]]; simpl in Hget;
    try discriminate Hget;
    try (injection Hget as <-; destruct Hin).
  destruct data as [|d ds]; injection Hget as <-; [destruct Hin|].
  change (In u (List.filter (fun user => truthy (slack_user_id user))
                  (d :: ds))) in Hin.
  apply filter_In in Hin as [_ H]. exact H.
Qed.

(** X5: the manual test brief goes around the dedup guard and leaves no
    trace in the history: it delivers exactly when the fetch returns an
    entry with that user id (entries without recipient id were already
    filtered out, so the second check of the function never fails), it
    returns what the delivery returned, and it writes no row, so that no
    later firing is blocked by it. *)
Theorem triggerTestBrief_bypasses_guard (r : Response) (userId : string)
    (sendResult : bool) (w : World) :
  (forall user, guardHit user (triggerTestBrief r userId sendResult w).2
                = guardHit user w)
  /\ match getActiveUsers r ≫= (fun users => findUser users userId) with
     | Some u =>
         triggerTestBrief r userId sendResult w
         = (sendResult,
            mkWorld (now w) (brief_usage w)
              (calls w ++
                 [(text (slack_user_id u), text (user_email u))])%list)
     | None => triggerTestBrief r userId sendResult w = (false, w)
     end.
Proof.
  unfold triggerTestBrief.
  destruct (getActiveUsers r) as [users|] eqn:Hget; simpl;
    [|split; reflexivity].
  destruct (findUser users userId) as [u|] eqn:Hfind; simpl;
    [|split; reflexivity].
  assert (Hslack : truthy (slack_user_id u) = true).
  { apply (getActiveUsers_have_recipient r users u Hget).
    unfold findUser in Hfind. apply find_some in Hfind as [Hin _].
    exact Hin. }
  rewrite Hslack. simpl. split; reflexivity.
Qed.

(** [fire] is the callback of an uninterrupted run whose queries are
    answered and whose insert is accepted. *)
Lemma fire_is_callback (user : User) (sendResult : bool) (w : World) :
  fire user sendResult w
  = record (callback user (uninterrupted sendResult w)) w.
Proof.
  unfold fire, callback, blocked, record, uninterrupted, deliverAndLog,
    insertLog, logBriefSent. simpl.
  destruct (checkIfAlreadySent _ _ _), (checkIfSentRecently _ _ _ _),
    (truthy (slack_user_id user)), sendResult; simpl;
    rewrite ?app_nil_r; destruct w; reflexivity.
Qed.

Lemma logged_row (user : User) (r : Run) (row : UsageRow) :
  logged (callback user r) = Some row ->
  row_user_id row = text (user_id user) /\ last_used row = logCalledAt r.
Proof.
  unfold callback, insertLog.
  destruct (blocked user r); [discriminate|].
  destruct (negb (truthy (slack_user_id user))), (inserted r); simpl;
    intros H; try discriminate H; injection H as <-; split; reflexivity.
Qed.

Lemma blocked_skips (user : User) (r : Run) :
  blocked user r = true -> callback user r = mkEffects None None.
Proof. intros H. unfold callback. rewrite H. reflexivity. Qed.

(** X6: for a user that has a user id (as the user of every trigger
    has; a [null] id matches no row of the table): whatever its outcome
    (delivered, failed, or skipped for a missing recipient id), a firing
    whose log row was written blocks every firing for the same user
    whose cooldown query is answered, reads a table that holds the row,
    and is called no more than 3000 seconds after the row's stamp, which
    is the clock at the call of [logBriefSent], after the delivery has
    returned: that firing calls no delivery and writes no row. *)
Theorem firing_blocks_refire_within_cooldown (user : User)
    (first second : Run) (row : UsageRow) :
  truthy (user_id user) = true ->
  logged (callback user first) = Some row ->
  In row (recentTable second) ->
  recentAnswered second = true ->
  recentCalledAt second - 3000 * 1000 <= logCalledAt first ->
  callback user second = mkEffects None None.
Proof.
  intros _ Hlog Hin Hans Hnear.
  change (3000 * 1000) with (COOLDOWN_SECONDS * MS_PER_SECOND) in Hnear.
  destruct (logged_row user first row Hlog) as [Huid Hstamp].
  apply blocked_skips. unfold blocked. rewrite Hans.
  assert (Hrecent :
            checkIfSentRecently true (recentTable second)
              (recentCalledAt second) (text (user_id user))
              COOLDOWN_SECONDS = true).
  { unfold checkIfSentRecently. cbv zeta.
    assert (Hrow : In row
                     (rowsSince (recentTable second) (text (user_id user))
                        (recentCalledAt second
                         - COOLDOWN_SECONDS * MS_PER_SECOND))).
    { unfold rowsSince. apply filter_In. split; [exact Hin|].
      rewrite Huid, String.eqb_refl, Hstamp. simpl.
      apply Z.leb_le. exact Hnear. }
    destruct (rowsSince _ _ _); [destruct Hrow|reflexivity]. }
  rewrite Hrecent. apply orb_true_r.
Qed.

Lemma firing_blocks_refire_within_cooldown_witness :
  let first :=
    mkRun 1721030400000 [] true 1721030400150 [] true false
      1721030460000 true in
  let row :=
    mkRow "U1" 1721030460000 failed (Some "Failed to send via webhook") in
  let second :=
    mkRun 1721033400000 [row] false 1721033400150 [row] true true
      1721033460000 true in
  truthy (user_id Scenarios.alice) = true
  /\ logged (callback Scenarios.alice first) = Some row
  /\ In row (recentTable second)
  /\ recentAnswered second = true
  /\ recentCalledAt second - 3000 * 1000 <= logCalledAt first
  /\ callback Scenarios.alice second = mkEffects None None.
Proof.
  cbv zeta. split; [reflexivity|]. split; [reflexivity|].
  split; [left; reflexivity|].
  split; [reflexivity|]. split; [vm_compute; discriminate|].
  apply (firing_blocks_refire_within_cooldown Scenarios.alice
           (mkRun 1721030400000 [] true 1721030400150 [] true false
              1721030460000 true)
           _
           (mkRow "U1" 1721030460000 failed
              (Some "Failed to send via webhook"))).
  - reflexivity.
  - reflexivity.
  - left. reflexivity.
  - reflexivity.
  - vm_compute. discriminate.
Defined.

(** X7: one attempt per day, for a user that has a user id.  If the
    log row of a firing was written, and a later firing's daily query
    is answered and reads a table in which that row is the only one of
    the user whose [last_used] falls on the UTC calendar day of the
    query or later, then the later firing is skipped, also when the
    first one failed: the row is the single row the daily check looks
    for. *)
Theorem firing_blocks_rest_of_day (user : User) (first second : Run)
    (row : UsageRow) (before after : list UsageRow) :
  truthy (user_id user) = true ->
  logged (callback user first) = Some row ->
  dailyTable second = (before ++ row :: after)%list ->
  dailyAnswered second = true ->
  dailyCalledAt second / 86400000 <= logCalledAt first / 86400000 ->
  Forall
    (fun other =>
       row_user_id other = text (user_id user) ->
       last_used other / 86400000 < dailyCalledAt second / 86400000)
    (before ++ after) ->
  callback user second = mkEffects None None.
Proof.
  intros _ Hlog Htable Hans Hday Hothers.
  destruct (logged_row user first row Hlog) as [Huid Hstamp].
  apply blocked_skips. unfold blocked. rewrite Hans.
  assert (Hnone : forall rows,
            Forall
              (fun other =>
                 row_user_id other = text (user_id user) ->
                 last_used other / 86400000
                 < dailyCalledAt second / 86400000) rows ->
            rowsSince rows (text (user_id user))
              (startOfUtcDay (dailyCalledAt second)) = []).
  { intros rows Hrows. unfold rowsSince.
    induction Hrows as [|other rows Hother _ IH]; [reflexivity|].
    simpl. rewrite IH.
    destruct (String.eqb (row_user_id other) (text (user_id user)))
      eqn:Hid; [|reflexivity].
    apply String.eqb_eq in Hid. specialize (Hother Hid).
    rewrite DedupProps.since_start_of_day. simpl.
    assert (Hlt : (dailyCalledAt second / 86400000
                   <=? last_used other / 86400000) = false)
      by (apply Z.leb_gt; exact Hother).
    rewrite Hlt. reflexivity. }
  apply Forall_app in Hothers as [Hbefore Hafter].
  assert (Hsent :
            checkIfAlreadySent true (dailyTable second)
              (dailyCalledAt second) (text (user_id user)) = true).
  { unfold checkIfAlreadySent. cbv zeta. rewrite Htable.
    change (before ++ row :: after)%list
      with (before ++ [row] ++ after)%list.
    unfold rowsSince. rewrite !List.filter_app.
    fold (rowsSince before (text (user_id user))
            (startOfUtcDay (dailyCalledAt second))).
    fold (rowsSince after (text (user_id user))
            (startOfUtcDay (dailyCalledAt second))).
    rewrite (Hnone before Hbefore), (Hnone after Hafter). simpl.
    rewrite Huid, String.eqb_refl, Hstamp.
    rewrite DedupProps.since_start_of_day. simpl.
    apply Z.leb_le in Hday. rewrite Hday. reflexivity. }
  rewrite Hsent. reflexivity.
Qed.

Lemma firing_blocks_rest_of_day_witness :
  let first :=
    mkRun 1721030400000 [] true 1721030400150 [] true false
      1721030460000 true in
  let row :=
    mkRow "U1" 1721030460000 failed (Some "Failed to send via webhook") in
  let yesterday := mkRow "U1" 1720944000000 success None in
  let other := mkRow "U2" 1721030500000 success None in
  let second :=
    mkRun 1721080000000 ([yesterday] ++ row :: [other]) true
      1721080000150 [] false true 1721080060000 true in
  truthy (user_id Scenarios.alice) = true
  /\ logged (callback Scenarios.alice first) = Some row
  /\ dailyTable second = ([yesterday] ++ row :: [other])%list
  /\ dailyAnswered second = true
  /\ dailyCalledAt second / 86400000 <= logCalledAt first / 86400000
  /\ Forall
       (fun r =>
          row_user_id r = text (user_id Scenarios.alice) ->
          last_used r / 86400000 < dailyCalledAt second / 86400000)
       ([yesterday] ++ [other])
  /\ callback Scenarios.alice second = mkEffects None None.
Proof.
  cbv zeta.
  assert (Hothers :
            Forall
              (fun r =>
                 row_user_id r = text (user_id Scenarios.alice) ->
                 last_used r / 86400000 < 1721080000000 / 86400000)
              ([mkRow "U1" 1720944000000 success None]
               ++ [mkRow "U2" 1721030500000 success None])).
  { simpl. constructor; [intros _; vm_compute; reflexivity|].
    constructor; [intros Hid; discriminate Hid|constructor]. }
  split; [reflexivity|].
  split; [reflexivity|]. split; [reflexivity|]. split; [reflexivity|].
  split; [vm_compute; discriminate|]. split; [exact Hothers|].
  apply (firing_blocks_rest_of_day Scenarios.alice
           (mkRun 1721030400000 [] true 1721030400150 [] true false
              1721030460000 true)
           _
           (mkRow "U1" 1721030460000 failed
              (Some "Failed to send via webhook"))
           [mkRow "U1" 1720944000000 success None]
           [mkRow "U2" 1721030500000 success None]).
  - reflexivity.
  - reflexivity.
  - reflexivity.
  - reflexivity.
  - vm_compute. discriminate.
  - exact Hothers.
Defined.

(** X8: what one firing adds to the world, for a user that has a user
    id.  The history and the list of delivery calls only grow, by at
    most one row and at most one call.  When the database accepts the
    insert, every delivery call comes with a row; when it refuses, no
    row is written, also after a delivery.  A firing that the guard
    blocks adds nothing.  The row is the user's, stamped with the clock
    at the call of [logBriefSent], and its status is [success] exactly
    when a delivery was called and resolved to true. *)
Theorem fire_appends_at_most_one (user : User) (r : Run) (w : World) :
  truthy (user_id user) = true ->
  exists rows sent,
    brief_usage (record (callback user r) w) = (brief_usage w ++ rows)%list
    /\ calls (record (callback user r) w) = (calls w ++ sent)%list
    /\ (length rows <= 1)%nat /\ (length sent <= 1)%nat
    /\ (inserted r = true -> (length sent <= length rows)%nat)
    /\ (inserted r = false -> rows = [])
    /\ (blocked user r = true -> rows = [] /\ sent = [])
    /\ Forall
         (fun row =>
            row_user_id row = text (user_id user)
            /\ last_used row = logCalledAt r
            /\ (status row = success
                <-> sent <> [] /\ sendOutcome r = true))
         rows.
Proof.
  intros _. unfold record, callback, insertLog.
  destruct (blocked user r), (truthy (slack_user_id user)),
    (inserted r), (sendOutcome r); simpl;
    eexists _, _;
    (split; [reflexivity|]); (split; [reflexivity|]); simpl;
    repeat match goal with
      | |- _ /\ _ => split
      | |- Forall _ [] => constructor
      | |- Forall _ [_] => constructor
      | |- _ <-> _ => split
      | |- _ -> _ => intro
      end;
    try reflexivity; try lia; try discriminate; try congruence;
    try match goal with
      | H : _ /\ _ |- _ => destruct H; congruence
      end.
Qed.

Lemma fire_appends_at_most_one_witness :
  let r :=
    mkRun 1721030400000 [] true 1721030400150 [] true true
      1721030460000 false in
  let w := mkWorld 1721030400000 [] [] in
  truthy (user_id Scenarios.alice) = true
  /\ calls (record (callback Scenarios.alice r) w)
     = [("S1", "alice@example.com")]
  /\ brief_usage (record (callback Scenarios.alice r) w) = []
  /\ exists rows sent,
       brief_usage (record (callback Scenarios.alice r) w)
       = (brief_usage w ++ rows)%list
       /\ calls (record (callback Scenarios.alice r) w)
          = (calls w ++ sent)%list
       /\ (length rows <= 1)%nat /\ (length sent <= 1)%nat
       /\ (inserted r = true -> (length sent <= length rows)%nat)
       /\ (inserted r = false -> rows = [])
       /\ (blocked Scenarios.alice r = true -> rows = [] /\ sent = [])
       /\ Forall
            (fun row =>
               row_user_id row = text (user_id Scenarios.alice)
               /\ last_used row = logCalledAt r
               /\ (status row = success
                   <-> sent <> [] /\ sendOutcome r = true))
            rows.
Proof.
  cbv zeta. split; [reflexivity|]. split; [reflexivity|].
  split; [reflexivity|].
  apply (fire_appends_at_most_one Scenarios.alice
           (mkRun 1721030400000 [] true 1721030400150 [] true true
              1721030460000 false)
           (mkWorld 1721030400000 [] [])).
  reflexivity.
Defined.

End FiringExtras.

(** ** The job queue *)

Module QueueExtras.
Import Moment Converter Queue.

Lemma scheduledAt_minute (local : Z) :
  scheduledAt local = local / MS_PER_MINUTE * MS_PER_MINUTE.
Proof.
  unfold scheduledAt, cronInstant, MS_PER_DAY, MS_PER_HOUR, MS_PER_MINUTE.
  Z.div_mod_to_equations. lia.
Qed.

(** X9: the enqueue step passes over a user whose [delivery_time] is
    null, and enqueues a user only when the first five characters of the
    delivery time equal the zero-padded local [HH:mm] of the user's zone;
    the [scheduled_at] it writes is the user's local wall-clock reading
    cut to the minute and placed on the UTC time line, not the UTC
    instant of the enqueue. *)
Theorem enqueue_row_is_local_reading (getZone : string -> option Zone)
    (nowUtc : Z) (user : User) (row : UpsertRow) :
  In row (dueUpsert getZone nowUtc user) ->
  let local := userNow getZone (timezone user) nowUtc in
  row = (user_id user, local / MS_PER_MINUTE * MS_PER_MINUTE)
  /\ exists deliveryTime,
       delivery_time user = Some deliveryTime
       /\ substring 0 5 deliveryTime
          = hhmm ((local / MS_PER_HOUR) mod 24)
              ((local / MS_PER_MINUTE) mod 60).
Proof.
  unfold dueUpsert. intros Hin. cbv zeta.
  destruct (delivery_time user) as [dt|]; [|destruct Hin].
  destruct (String.eqb _ _) eqn:Heq; [|destruct Hin].
  destruct Hin as [<-|[]]. rewrite scheduledAt_minute.
  split; [reflexivity|]. exists dt. split; [reflexivity|].
  apply String.eqb_eq in Heq. symmetry. exact Heq.
Qed.

Lemma enqueue_row_is_local_reading_witness :
  let local := userNow zoneDataEast (timezone taro) tokyoMorning in
  In (Some "U4", 1721030400000) (dueUpsert zoneDataEast tokyoMorning taro)
  /\ (Some "U4", 1721030400000)
     = (user_id taro, local / MS_PER_MINUTE * MS_PER_MINUTE)
  /\ exists deliveryTime,
       delivery_time taro = Some deliveryTime
       /\ substring 0 5 deliveryTime
          = hhmm ((local / MS_PER_HOUR) mod 24)
              ((local / MS_PER_MINUTE) mod 60).
Proof.
  cbv zeta.
  assert (Hin : In (Some "U4", 1721030400000)
                  (dueUpsert zoneDataEast tokyoMorning taro))
    by (vm_compute; left; reflexivity).
  split; [exact Hin|].
  apply (enqueue_row_is_local_reading zoneDataEast tokyoMorning taro
           (Some "U4", 1721030400000) Hin).
Defined.

Lemma insertBySchedule_In (j x : Job) (l : list Job) :
  In x (insertBySchedule j l) <-> x = j \/ In x l.
Proof.
  induction l as [|k rest IH]; simpl.
  - split; [intros [<-|[]]; left; reflexivity|intros [->|[]]; left; reflexivity].
  - destruct (scheduled_at j <=? scheduled_at k); simpl.
    + split; [intros [<-|H]; [left; reflexivity|right; exact H]
             |intros [->|H]; [left; reflexivity|right; exact H]].
    + rewrite IH. split.
      * intros [<-|[->|H]]; [right; left; reflexivity
                            |left; reflexivity|right; right; exact H].
      * intros [->|[<-|H]]; [right; left; reflexivity
                            |left; reflexivity|right; right; exact H].
Qed.

Lemma orderBySchedule_In (x : Job) (l : list Job) :
  In x (orderBySchedule l) <-> In x l.
Proof.
  induction l as [|j rest IH]; simpl; [reflexivity|].
  rewrite insertBySchedule_In, IH. split; intros [H|H]; auto.
Qed.

Lemma insertBySchedule_sorted (j : Job) (l : list Job) :
  StronglySorted (fun a b => scheduled_at a <= scheduled_at b) l ->
  StronglySorted (fun a b => scheduled_at a <= scheduled_at b)
    (insertBySchedule j l).
Proof.
  induction l as [|k rest IH]; intros Hs; simpl.
  - constructor; constructor.
  - apply StronglySorted_inv in Hs as [Hrest Hk].
    destruct (scheduled_at j <=? scheduled_at k) eqn:Hle.
    + apply Z.leb_le in Hle. constructor.
      * constructor; assumption.
      * constructor; [exact Hle|].
        apply List.Forall_forall. intros x Hx.
        rewrite List.Forall_forall in Hk. specialize (Hk x Hx). lia.
    + apply Z.leb_gt in Hle. constructor; [apply IH, Hrest|].
      apply List.Forall_forall. intros x Hx.
      apply insertBySchedule_In in Hx as [->|Hx]; [lia|].
      rewrite List.Forall_forall in Hk. apply Hk, Hx.
Qed.

Lemma orderBySchedule_sorted (l : list Job) :
  StronglySorted (fun a b => scheduled_at a <= scheduled_at b)
    (orderBySchedule l).
Proof.
  induction l as [|j rest IH]; simpl; [constructor|].
  apply insertBySchedule_sorted, IH.
Qed.

Lemma sorted_app_inv {A} (R : A -> A -> Prop) (l1 l2 : list A) :
  StronglySorted R (l1 ++ l2) ->
  StronglySorted R l1
  /\ forall a b, In a l1 -> In b l2 -> R a b.
Proof.
  induction l1 as [|x l1 IH]; simpl; intros Hs.
  - split; [constructor|]. intros a b [].
  - apply StronglySorted_inv in Hs as [Hrest Hx].
    destruct (IH Hrest) as [Hl1 Hcross]. split.
    + constructor; [exact Hl1|].
      rewrite List.Forall_forall in Hx |- *.
      intros y Hy. apply Hx, in_or_app. left. exact Hy.
    + intros a b [<-|Ha] Hb.
      * rewrite List.Forall_forall in Hx. apply Hx, in_or_app.
        right. exact Hb.
      * apply Hcross; assumption.
Qed.

Lemma sorted_map_le {A} (f : A -> Z) (l : list A) :
  StronglySorted (fun a b => f a <= f b) l ->
  StronglySorted Z.le (map f l).
Proof.
  induction 1 as [|a l Hs IH Ha]; simpl; constructor; [exact IH|].
  rewrite List.Forall_forall in Ha |- *.
  intros y Hy. apply in_map_iff in Hy as (x & <- & Hx). apply Ha, Hx.
Qed.

(** Every job handed out is the view of a pending, due row. *)
Lemma fetchNextBriefJobs_due_only (nowUtc : Z) (limit : nat)
    (table : list Job) (v : JobView) :
  In v (fetchNextBriefJobs true nowUtc limit table) ->
  exists j, In j table /\ v = view j /\ job_status j = pending
            /\ scheduled_at j <= nowUtc.
Proof.
  unfold fetchNextBriefJobs. intros Hv.
  apply in_map_iff in Hv as (j & <- & Hj).
  assert (Hj' : In j (orderBySchedule
                        (List.filter
                           (fun j => isPending j
                                     && (scheduled_at j <=? nowUtc))
                           table))).
  { rewrite <- (firstn_skipn limit _). apply in_or_app. left. exact Hj. }
  apply orderBySchedule_In, filter_In in Hj' as [Hin Hc].
  apply andb_true_iff in Hc as [Hp Hd]. apply Z.leb_le in Hd.
  exists j. unfold isPending in Hp.
  destruct (job_status j) eqn:Hst; try discriminate Hp. auto.
Qed.

(** X10: [fetchNextBriefJobs] returns at most [limit] jobs, each the
    view of a pending row of the table that is due, in ascending order
    of [scheduled_at]; a due pending row that is left out is scheduled
    no earlier than every job returned; when the query fails the result
    is empty. *)
Theorem fetchNextBriefJobs_earliest_due (nowUtc : Z) (limit : nat)
    (table : list Job) :
  let result := fetchNextBriefJobs true nowUtc limit table in
  (length result <= limit)%nat
  /\ (forall v, In v result ->
                exists j, In j table /\ v = view j
                          /\ job_status j = pending
                          /\ scheduled_at j <= nowUtc)
  /\ StronglySorted Z.le (map view_scheduled_at result)
  /\ (forall j v,
        In j table -> job_status j = pending -> scheduled_at j <= nowUtc ->
        ~ In (view j) result -> In v result ->
        view_scheduled_at v <= scheduled_at j)
  /\ fetchNextBriefJobs false nowUtc limit table = [].
Proof.
  unfold fetchNextBriefJobs. cbv zeta.
  set (due := List.filter
                (fun j => isPending j && (scheduled_at j <=? nowUtc)) table).
  set (sorted := orderBySchedule due).
  assert (Hdue : forall j, In j sorted <->
                           In j table /\ job_status j = pending
                           /\ scheduled_at j <= nowUtc).
  { intros j. unfold sorted. rewrite orderBySchedule_In. unfold due.
    rewrite filter_In, andb_true_iff, Z.leb_le. unfold isPending.
    destruct (job_status j); split; intros (H1 & H2 & H3);
      try discriminate; auto. }
  pose proof (orderBySchedule_sorted due) as Hsorted. fold sorted in Hsorted.
  rewrite <- (firstn_skipn limit sorted) in Hsorted.
  apply sorted_app_inv in Hsorted as [Hfirst Hcross].
  split; [rewrite length_map; apply firstn_le_length|].
  split.
  { intros v Hv. apply in_map_iff in Hv as (j & <- & Hj).
    assert (Hj' : In j sorted).
    { rewrite <- (firstn_skipn limit sorted). apply in_or_app.
      left. exact Hj. }
    apply Hdue in Hj' as (H1 & H2 & H3).
    exists j. auto. }
  split.
  { rewrite map_map. apply (sorted_map_le scheduled_at), Hfirst. }
  split; [|reflexivity].
  intros j v Hj Hpend Hdue' Hout Hv.
  apply in_map_iff in Hv as (a & <- & Ha). simpl.
  apply Hcross; [exact Ha|].
  assert (Hin : In j sorted) by (apply Hdue; auto).
  rewrite <- (firstn_skipn limit sorted) in Hin.
  apply in_app_or in Hin as [Hin|Hin]; [|exact Hin].
  exfalso. apply Hout. apply in_map, Hin.
Qed.

(** X11: for a user whose zone is ahead of UTC the job written at the
    user's delivery minute is not yet due: its [scheduled_at] lies after
    the instant of the enqueue, so [fetchNextBriefJobs] at that instant
    does not return it.  For a zone at or behind UTC the job is due at
    once. *)
Theorem job_due_only_west_of_utc (getZone : string -> option Zone)
    (nowUtc : Z) (user : User) (tz : string) (z : Zone) (row : UpsertRow) :
  timezone user = Some tz ->
  getZone tz = Some z ->
  In row (dueUpsert getZone nowUtc user) ->
  (utcOffset z nowUtc < 0 ->
   nowUtc < row.2
   /\ forall limit table v,
        In v (fetchNextBriefJobs true nowUtc limit table) ->
        view_scheduled_at v <> row.2)
  /\ (0 <= utcOffset z nowUtc -> row.2 <= nowUtc).
Proof.
  intros Htz Hz Hin.
  destruct (enqueue_row_is_local_reading getZone nowUtc user row Hin)
    as [Hrow _].
  unfold userNow in Hrow. rewrite Htz, Hz in Hrow. subst row. simpl.
  unfold toLocal, MS_PER_MINUTE. split.
  - intros Heast.
    assert (Hlater : nowUtc
                     < (nowUtc - utcOffset z nowUtc * 60000) / 60000 * 60000)
      by (Z.div_mod_to_equations; lia).
    split; [exact Hlater|].
    intros limit table v Hv.
    destruct (fetchNextBriefJobs_due_only nowUtc limit table v Hv)
      as (j & _ & -> & _ & Hdue).
    simpl. lia.
  - intros Hwest. Z.div_mod_to_equations. lia.
Qed.

Lemma job_due_only_west_of_utc_witness :
  timezone taro = Some "Asia/Tokyo"
  /\ zoneDataEast "Asia/Tokyo" = Some Asia_Tokyo
  /\ In (Some "U4", 1721030400000) (dueUpsert zoneDataEast tokyoMorning taro)
  /\ utcOffset Asia_Tokyo tokyoMorning < 0
  /\ tokyoMorning < 1721030400000
  /\ forall limit table v,
       In v (fetchNextBriefJobs true tokyoMorning limit table) ->
       view_scheduled_at v <> 1721030400000.
Proof.
  assert (Hin : In (Some "U4", 1721030400000)
                  (dueUpsert zoneDataEast tokyoMorning taro))
    by (vm_compute; left; reflexivity).
  assert (Heast : utcOffset Asia_Tokyo tokyoMorning < 0)
    by (vm_compute; reflexivity).
  split; [reflexivity|]. split; [reflexivity|]. split; [exact Hin|].
  split; [exact Heast|].
  apply (proj1 (job_due_only_west_of_utc zoneDataEast tokyoMorning taro
                  "Asia/Tokyo" Asia_Tokyo (Some "U4", 1721030400000)
                  eq_refl eq_refl Hin) Heast).
Defined.

Lemma updateWhereId_not_pending (f : Job -> Job) (id : nat)
    (table : list Job) (j : Job) :
  (forall k, isPending (f k) = false) ->
  (forall k, job_id (f k) = job_id k) ->
  In j (updateWhereId f id table) -> isPending j = true -> job_id j <> id.
Proof.
  intros Hf Hid Hin Hpend Heq. unfold updateWhereId in Hin.
  apply in_map_iff in Hin as (k & Hk & _).
  destruct (job_id k =? id)%nat eqn:Hk'.
  - subst j. rewrite Hf in Hpend. discriminate Hpend.
  - subst j. apply Nat.eqb_neq in Hk'. contradiction.
Qed.

(** X12: a job taken in hand is not handed out again: after
    [markJobProcessing], [completeJob] or [failJob] for an id, no job
    that [fetchNextBriefJobs] returns has that id. *)
Theorem handled_job_not_fetched (op : QueueOp) (nowUtc : Z) (limit : nat)
    (table : list Job) (v : JobView) :
  In v (fetchNextBriefJobs true nowUtc limit (applyOp true table op)) ->
  view_id v <> match op with
               | MarkProcessing id | Complete id | Fail id _ => id
               end.
Proof.
  intros Hv.
  destruct (fetchNextBriefJobs_due_only nowUtc limit _ v Hv)
    as (j & Hj & -> & Hpend & _).
  assert (Hp : isPending j = true) by (unfold isPending; rewrite Hpend;
                                       reflexivity).
  simpl. destruct op as [id|id|id err]; simpl in Hj;
    eapply updateWhereId_not_pending; try exact Hj; try exact Hp;
    intros k; reflexivity.
Qed.

Lemma handled_job_not_fetched_witness :
  let table := [mkJob 0 (Some "U1") 1721030400000 pending 0 None;
                mkJob 1 (Some "U2") 1721030400000 pending 0 None] in
  let v := mkView 1 (Some "U2") 1721030400000 pending 0 in
  In v (fetchNextBriefJobs true 1721034000000 5
          (applyOp true table (MarkProcessing 0)))
  /\ view_id v <> 0%nat.
Proof.
  cbv zeta.
  assert (Hin : In (mkView 1 (Some "U2") 1721030400000 pending 0)
                  (fetchNextBriefJobs true 1721034000000 5
                     (applyOp true
                        [mkJob 0 (Some "U1") 1721030400000 pending 0 None;
                         mkJob 1 (Some "U2") 1721030400000 pending 0 None]
                        (MarkProcessing 0))))
    by (vm_compute; left; reflexivity).
  split; [exact Hin|].
  apply (handled_job_not_fetched (MarkProcessing 0) 1721034000000 5 _ _ Hin).
Defined.

(** X13: the three state helpers never change the number of attempts:
    after any sequence of them the table holds the same rows with the
    same ids, users, instants and attempt counts; only [status] and
    [last_error] move. *)
Theorem queue_ops_keep_attempts (available : bool) (ops : list QueueOp)
    (table : list Job) :
  map (fun j => (job_id j, job_user_id j, scheduled_at j, attempts j))
    (fold_left (applyOp available) ops table)
  = map (fun j => (job_id j, job_user_id j, scheduled_at j, attempts j))
      table.
Proof.
  revert table. induction ops as [|op ops IH]; intros table; simpl;
    [reflexivity|].
  rewrite IH.
  destruct op as [id|id|id err]; simpl;
    unfold markJobProcessing, completeJob, failJob, updateWhereId;
    (destruct available; [|reflexivity]);
    rewrite map_map; apply map_ext; intros j;
    destruct (job_id j =? id)%nat; reflexivity.
Qed.

Section Upsert.
Variable defaultAttempts : Z.

Lemma withStatus_same (j : Job) : withStatus (job_status j) j = j.
Proof. destruct j; reflexivity. Qed.

Lemma keyMatches_self (row : UpsertRow) (j : Job) :
  row.1 <> None -> job_user_id j = row.1 -> scheduled_at j = row.2 ->
  keyMatches row j = true.
Proof.
  intros Hsome Hu Hs. unfold keyMatches. rewrite Hu, Hs.
  destruct row.1 as [a|]; [|contradiction].
  rewrite String.eqb_refl, Z.eqb_refl. reflexivity.
Qed.

Lemma keyMatches_jobKey (row : UpsertRow) (j : Job) :
  keyMatches row j = true -> jobKey j = row.
Proof.
  unfold keyMatches, jobKey. destruct row as [[a|] t]; simpl;
    [|discriminate].
  destruct (job_user_id j) as [b|]; [|discriminate].
  intros H. apply andb_true_iff in H as [Ha Ht].
  apply String.eqb_eq in Ha. apply Z.eqb_eq in Ht. congruence.
Qed.

Lemma upsertRow_settles (table : list Job) (row : UpsertRow) :
  row.1 <> None -> settled row (upsertRow defaultAttempts table row).
Proof.
  intros Hsome. unfold upsertRow, settled.
  destruct (existsb (keyMatches row) table) eqn:Hex.
  - split.
    + apply existsb_exists in Hex as (j & Hj & Hm).
      apply existsb_exists. exists (withStatus pending j). split.
      * apply in_map_iff. exists j. rewrite Hm. auto.
      * exact Hm.
    + apply List.Forall_forall. intros j' Hj'.
      apply in_map_iff in Hj' as (j & <- & _).
      destruct (keyMatches row j) eqn:Hm; [reflexivity|].
      intros H. rewrite Hm in H. discriminate H.
  - split.
    + rewrite existsb_app. simpl.
      rewrite (keyMatches_self row) by (try exact Hsome; reflexivity).
      apply orb_true_r.
    + apply List.Forall_forall. intros j Hj.
      apply in_app_or in Hj as [Hj|[<-|[]]]; [|reflexivity].
      intros Hm. exfalso.
      assert (Hex' : existsb (keyMatches row) table = true)
        by (apply existsb_exists; eauto).
      rewrite Hex in Hex'. discriminate Hex'.
Qed.

Lemma upsertRow_keeps_settled (table : list Job) (row other : UpsertRow) :
  settled row table ->
  settled row (upsertRow defaultAttempts table other).
Proof.
  intros [Hex Hall]. unfold upsertRow, settled.
  rewrite List.Forall_forall in Hall.
  destruct (existsb (keyMatches other) table).
  - split.
    + apply existsb_exists in Hex as (j & Hj & Hm).
      apply existsb_exists.
      exists (if keyMatches other j then withStatus pending j else j).
      split; [apply in_map_iff; eauto|].
      destruct (keyMatches other j); exact Hm.
    + apply List.Forall_forall. intros j' Hj'.
      apply in_map_iff in Hj' as (j & <- & Hj).
      destruct (keyMatches other j); [reflexivity|]. apply Hall, Hj.
  - split.
    + rewrite existsb_app, Hex. reflexivity.
    + apply List.Forall_forall. intros j Hj.
      apply in_app_or in Hj as [Hj|[<-|[]]]; [apply Hall, Hj|reflexivity].
Qed.

Lemma upsertRow_settled_id (table : list Job) (row : UpsertRow) :
  settled row table -> upsertRow defaultAttempts table row = table.
Proof.
  intros [Hex Hall]. unfold upsertRow. rewrite Hex.
  rewrite List.Forall_forall in Hall.
  rewrite <- (map_id table) at 2. apply map_ext_in. intros j Hj.
  destruct (keyMatches row j) eqn:Hm; [|reflexivity].
  rewrite <- (Hall j Hj Hm). apply withStatus_same.
Qed.

Lemma upsertAll_keeps_settled (rows : list UpsertRow) (table : list Job)
    (row : UpsertRow) :
  settled row table -> settled row (upsertAll defaultAttempts table rows).
Proof.
  unfold upsertAll. revert table.
  induction rows as [|r rs IH]; intros table Hs; simpl; [exact Hs|].
  apply IH, upsertRow_keeps_settled, Hs.
Qed.

Lemma upsertAll_settles (rows : list UpsertRow) (table : list Job) :
  Forall (fun r => r.1 <> None) rows ->
  Forall (fun r => settled r (upsertAll defaultAttempts table rows)) rows.
Proof.
  revert table. induction rows as [|r rs IH]; intros table Hsome;
    [constructor|].
  apply Forall_cons in Hsome as [Hr Hrs]. constructor.
  - unfold upsertAll. simpl.
    apply (upsertAll_keeps_settled rs), upsertRow_settles, Hr.
  - apply (IH (upsertRow defaultAttempts table r) Hrs).
Qed.

Lemma upsertAll_fixed (rows : list UpsertRow) (table : list Job) :
  Forall (fun r => settled r table) rows ->
  upsertAll defaultAttempts table rows = table.
Proof.
  unfold upsertAll. induction rows as [|r rs IH]; intros Hall; simpl;
    [reflexivity|].
  apply Forall_cons in Hall as [Hr Hrs].
  rewrite (upsertRow_settled_id table r Hr). apply IH, Hrs.
Qed.

Lemma dueUpserts_have_user (getZone : string -> option Zone) (nowUtc : Z)
    (users : list User) :
  Forall (fun u => user_id u <> None) users ->
  Forall (fun r : UpsertRow => r.1 <> None)
    (dueUpserts getZone nowUtc users).
Proof.
  intros Hall. apply List.Forall_forall. intros r Hr.
  unfold dueUpserts in Hr. apply in_flat_map in Hr as (u & Hu & Hr).
  rewrite List.Forall_forall in Hall. specialize (Hall u Hu).
  unfold dueUpsert in Hr. destruct (delivery_time u); [|destruct Hr].
  destruct (String.eqb _ _); [|destruct Hr].
  destruct Hr as [<-|[]]. exact Hall.
Qed.

(** X14: the enqueue step is idempotent: run a second time at the same
    instant for the same users, it leaves the table as the first run
    left it and returns the same answer; note that [inserted] counts
    the rows of the batch, also when all of them were there already. *)
Theorem enqueue_twice_is_once (getZone : string -> option Zone)
    (available : bool) (users : list User) (nowUtc : Z)
    (table : list Job) :
  Forall (fun u => user_id u <> None) users ->
  let once :=
    enqueueDueBriefJobs defaultAttempts getZone available users nowUtc
      table in
  enqueueDueBriefJobs defaultAttempts getZone available users nowUtc once.2
  = once.
Proof.
  intros Husers. cbv zeta. unfold enqueueDueBriefJobs.
  pose proof (dueUpserts_have_user getZone nowUtc users Husers) as Hsome.
  destruct (dueUpserts getZone nowUtc users) as [|r rs] eqn:Hups;
    [reflexivity|].
  destruct (available && batchDistinct (r :: rs)) eqn:Hok; simpl;
    rewrite ?Hok; [|reflexivity].
  f_equal.
  change (upsertAll defaultAttempts
            (upsertAll defaultAttempts table (r :: rs)) (r :: rs)
          = upsertAll defaultAttempts table (r :: rs)).
  apply upsertAll_fixed, upsertAll_settles, Hsome.
Qed.

(** X15: whatever state a job is in, an upsert of a batch that holds its
    key puts it back to pending: a job already completed or failed for a
    minute becomes pending again when that minute is enqueued again. *)
Theorem reenqueue_resets_to_pending (table : list Job)
    (rows : list UpsertRow) (row : UpsertRow) (j : Job) :
  Forall (fun r => r.1 <> None) rows ->
  In row rows ->
  In j (upsertAll defaultAttempts table rows) ->
  keyMatches row j = true ->
  job_status j = pending.
Proof.
  intros Hsome Hrow Hj Hm.
  pose proof (upsertAll_settles rows table Hsome) as Hall.
  rewrite List.Forall_forall in Hall.
  destruct (Hall row Hrow) as [_ Hpend].
  rewrite List.Forall_forall in Hpend. exact (Hpend j Hj Hm).
Qed.

Lemma upsertRow_keys (table : list Job) (row : UpsertRow) :
  row.1 <> None ->
  NoDup (map jobKey table) ->
  NoDup (map jobKey (upsertRow defaultAttempts table row)).
Proof.
  intros Hsome Hnd. unfold upsertRow.
  destruct (existsb (keyMatches row) table) eqn:Hex.
  - rewrite map_map.
    rewrite (map_ext _ jobKey); [exact Hnd|].
    intros j. destruct (keyMatches row j); reflexivity.
  - rewrite map_app. simpl. apply NoDup_app. split; [exact Hnd|].
    split; [|apply NoDup_singleton].
    intros k Hk Hk'. apply list_elem_of_singleton in Hk'. subst k.
    apply list_elem_of_In, in_map_iff in Hk as (j & Hkey & Hj).
    unfold jobKey in Hkey. simpl in Hkey. injection Hkey as Hu Ht.
    assert (Hm : keyMatches row j = true)
      by (apply keyMatches_self; assumption).
    assert (Hex' : existsb (keyMatches row) table = true)
      by (apply existsb_exists; eauto).
    rewrite Hex in Hex'. discriminate Hex'.
Qed.

Lemma upsertAll_keys (rows : list UpsertRow) (table : list Job) :
  Forall (fun r => r.1 <> None) rows ->
  NoDup (map jobKey table) ->
  NoDup (map jobKey (upsertAll defaultAttempts table rows)).
Proof.
  unfold upsertAll. revert table.
  induction rows as [|r rs IH]; intros table Hsome Hnd; simpl;
    [exact Hnd|].
  apply Forall_cons in Hsome as [Hr Hrs].
  apply IH; [exact Hrs|apply upsertRow_keys; assumption].
Qed.

Lemma one_match_per_key (row : UpsertRow) (table : list Job) :
  NoDup (map jobKey table) ->
  (length (List.filter (keyMatches row) table) <= 1)%nat.
Proof.
  induction table as [|j rest IH]; intros Hnd; simpl; [lia|].
  simpl in Hnd. apply NoDup_cons in Hnd as [Hnot Hnd].
  specialize (IH Hnd).
  destruct (keyMatches row j) eqn:Hm; [|lia]. simpl.
  destruct (List.filter (keyMatches row) rest) as [|k ks] eqn:Hf;
    [simpl; lia|].
  exfalso. apply Hnot.
  assert (Hk : In k (List.filter (keyMatches row) rest))
    by (rewrite Hf; left; reflexivity).
  apply filter_In in Hk as [Hin Hmk].
  apply keyMatches_jobKey in Hm, Hmk.
  apply list_elem_of_In, in_map_iff. exists k. split; [congruence|exact Hin].
Qed.

(** X16: if no two rows of the queue share a (user, instant) key, then
    after [enqueueDueBriefJobs], whether the upsert was accepted or
    not, still no key occurs twice; and when it was accepted (which
    needs the database to answer and the batch to hold no key twice)
    the queue holds exactly one row for each key of the batch. *)
Theorem upsert_one_row_per_key (getZone : string -> option Zone)
    (available : bool) (users : list User) (nowUtc : Z)
    (table : list Job) :
  NoDup (map jobKey table) ->
  Forall (fun u => user_id u <> None) users ->
  let result :=
    enqueueDueBriefJobs defaultAttempts getZone available users nowUtc
      table in
  NoDup (map jobKey result.2)
  /\ (enqueueError result.1 = false
      <-> dueUpserts getZone nowUtc users = []
          \/ (available = true
              /\ batchDistinct (dueUpserts getZone nowUtc users) = true))
  /\ (enqueueError result.1 = false ->
      forall row,
        In row (dueUpserts getZone nowUtc users) ->
        length (List.filter (keyMatches row) result.2) = 1%nat).
Proof.
  intros Hnd Husers. cbv zeta. unfold enqueueDueBriefJobs.
  pose proof (dueUpserts_have_user getZone nowUtc users Husers) as Hsome.
  destruct (dueUpserts getZone nowUtc users) as [|r rs] eqn:Hups.
  - simpl. split; [exact Hnd|]. split; [split; auto|].
    intros _ row [].
  - destruct (available && batchDistinct (r :: rs)) eqn:Hok.
    + cbn [fst snd inserted enqueueError].
      pose proof (upsertAll_keys (r :: rs) table Hsome Hnd) as Hnd'.
      split; [exact Hnd'|]. split.
      * split; [intros _; right|reflexivity].
        apply andb_true_iff in Hok. exact Hok.
      * intros _ row Hrow.
        pose proof (one_match_per_key row _ Hnd') as Hle.
        pose proof (upsertAll_settles (r :: rs) table Hsome) as Hall.
        rewrite List.Forall_forall in Hall.
        destruct (Hall row Hrow) as [Hex _].
        apply existsb_exists in Hex as (j & Hj & Hm).
        assert (Hin : In j (List.filter (keyMatches row)
                              (upsertAll defaultAttempts table (r :: rs))))
          by (apply filter_In; auto).
        destruct (List.filter _ _); [destruct Hin|simpl in *; lia].
    + cbn [fst snd inserted enqueueError].
      split; [exact Hnd|]. split.
      * split; [discriminate|].
        intros [Hnil|[Ha Hb]]; [discriminate Hnil|].
        rewrite Ha, Hb in Hok. discriminate Hok.
      * discriminate.
Qed.

End Upsert.

Lemma enqueue_twice_is_once_witness :
  let once :=
    enqueueDueBriefJobs 0 zoneDataEast true [taro]
      tokyoMorning [] in
  Forall (fun u => user_id u <> None) [taro]
  /\ enqueueDueBriefJobs 0 zoneDataEast true [taro]
       tokyoMorning once.2 = once.
Proof.
  assert (H : Forall (fun u => user_id u <> None) [taro])
    by (repeat constructor; discriminate).
  split; [exact H|].
  apply (enqueue_twice_is_once 0 zoneDataEast true [taro] tokyoMorning [] H).
Defined.

Lemma reenqueue_resets_to_pending_witness :
  let done := mkJob 0 (Some "U4") 1721030400000 completed 1 None in
  let rows := [(Some "U4", 1721030400000)] in
  Forall (fun r : UpsertRow => r.1 <> None) rows
  /\ In (Some "U4", 1721030400000) rows
  /\ In (withStatus pending done) (upsertAll 0 [done] rows)
  /\ keyMatches (Some "U4", 1721030400000) (withStatus pending done) = true
  /\ job_status (withStatus pending done) = pending.
Proof.
  cbv zeta.
  assert (H1 : Forall (fun r : UpsertRow => r.1 <> None)
                 [(Some "U4", 1721030400000)])
    by (repeat constructor; discriminate).
  assert (H2 : In (Some "U4", 1721030400000) [(Some "U4", 1721030400000)])
    by (left; reflexivity).
  assert (H3 : In (withStatus pending
                     (mkJob 0 (Some "U4") 1721030400000 completed 1 None))
                 (upsertAll 0
                    [mkJob 0 (Some "U4") 1721030400000 completed 1 None]
                    [(Some "U4", 1721030400000)]))
    by (left; reflexivity).
  split; [exact H1|]. split; [exact H2|]. split; [exact H3|].
  split; [reflexivity|].
  apply (reenqueue_resets_to_pending 0 _ _ _ _ H1 H2 H3). reflexivity.
Defined.

Lemma upsert_one_row_per_key_witness :
  let done := mkJob 0 (Some "U4") 1721030400000 completed 1 None in
  let result :=
    enqueueDueBriefJobs 0 zoneDataEast true [taro] tokyoMorning [done] in
  NoDup (map jobKey [done])
  /\ Forall (fun u => user_id u <> None) [taro]
  /\ dueUpserts zoneDataEast tokyoMorning [taro]
     = [(Some "U4", 1721030400000)]
  /\ NoDup (map jobKey result.2)
  /\ (enqueueError result.1 = false
      <-> dueUpserts zoneDataEast tokyoMorning [taro] = []
          \/ (true = true
              /\ batchDistinct (dueUpserts zoneDataEast tokyoMorning [taro])
                 = true))
  /\ (enqueueError result.1 = false ->
      forall row,
        In row (dueUpserts zoneDataEast tokyoMorning [taro]) ->
        length (List.filter (keyMatches row) result.2) = 1%nat).
Proof.
  cbv zeta.
  assert (H0 : NoDup (map jobKey
                        [mkJob 0 (Some "U4") 1721030400000 completed 1
                           None])).
  { simpl. apply NoDup_singleton. }
  assert (H1 : Forall (fun u => user_id u <> None) [taro])
    by (repeat constructor; discriminate).
  split; [exact H0|]. split; [exact H1|].
  split; [vm_compute; reflexivity|].
  apply (upsert_one_row_per_key 0 zoneDataEast true [taro] tokyoMorning
           _ H0 H1).
Defined.

End QueueExtras.

(** ** User preferences *)

Module PreferencesExtras.
Import Preferences.

(** X17: an update can be read back: after [updateUserPreference] for a
    non-empty user id, [getUserPreferences] by that id (whatever email
    goes with the call) returns the timezone, delivery time and email
    just written; the recipient id is the new one when one was given and
    the one the user had otherwise; the rows of the other users are
    untouched. *)
Theorem update_then_get (userId : string)
    (timezone deliveryTime userEmail slackUserId anyEmail : option string)
    (prefs : gmap string User) :
  userId <> "" ->
  let prefs' :=
    (updateUserPreference true userId timezone deliveryTime userEmail
       slackUserId prefs).2 in
  getUserPreferences true (Some userId) anyEmail prefs'
  = Some (mkUser (Some userId) timezone userEmail deliveryTime
            (if truthy slackUserId then slackUserId
             else prefs !! userId ≫= slack_user_id))
  /\ forall other, other <> userId -> prefs' !! other = prefs !! other.
Proof.
  intros Hne. cbv zeta. unfold updateUserPreference. simpl. split.
  - unfold getUserPreferences. simpl.
    assert (Ht : negb (String.eqb userId "") = true).
    { apply negb_true_iff, String.eqb_neq, Hne. }
    rewrite Ht. simpl. rewrite lookup_insert_eq. simpl.
    destruct (prefs !! userId); reflexivity.
  - intros other Hother. apply lookup_insert_ne. congruence.
Qed.

Lemma update_then_get_witness :
  let prefs :=
    {[ "U1" := Scenarios.alice ]} : gmap string User in
  let prefs' :=
    (updateUserPreference true "U1" (Some "Europe/Paris") (Some "07:30")
       (Some "alice@example.com") None prefs).2 in
  "U1" <> ""
  /\ getUserPreferences true (Some "U1") None prefs'
     = Some (mkUser (Some "U1") (Some "Europe/Paris")
               (Some "alice@example.com") (Some "07:30")
               (if truthy None then None
                else prefs !! "U1" ≫= slack_user_id))
  /\ forall other, other <> "U1" -> prefs' !! other = prefs !! other.
Proof.
  cbv zeta. split; [discriminate|].
  apply (update_then_get "U1" (Some "Europe/Paris") (Some "07:30")
           (Some "alice@example.com") None None). discriminate.
Defined.

End PreferencesExtras.

(** ** The cache of the generation coordinator *)

Module CacheExtras.
Import Generator Scenarios.

Lemma cached_after_generation (done : Z) (stamp : option Z)
    (key content : string) (s : State) :
  expired done stamp = false ->
  briefCache (afterGeneration done key stamp (Resolved content) s).1
    !! key = Some (mkCached content stamp).
Proof.
  intros Hkept. simpl. unfold cleanupCache.
  apply map_lookup_filter_Some. split; [apply lookup_insert_eq|].
  simpl. rewrite Hkept. exact I.
Qed.



(** X19: the cache entry is stamped with the start of the generation,
    not its end.  For a user whose zone name the date library accepts,
    a generation that took longer than the cache duration leaves no
    entry behind (the clean-up that follows the insertion removes it),
    and the next call for the user, however soon it comes, goes on to
    generate again. *)
Theorem slow_generation_is_not_cached (isValidZone : string -> bool)
    (userEmail : string) (userId : option string)
    (userPreferences : option User) (startedAt done later : Z)
    (content : string) (s : State) :
  isValidZone (userTimezone userPreferences) = true ->
  30000 < done - startedAt ->
  let key := cacheKey userEmail userId in
  let started :=
    afterPreferences isValidZone startedAt userPreferences key s in
  let s1 :=
    (afterGeneration done key (Some startedAt) (Resolved content)
       started.1).1 in
  started.2 = AwaitsGeneration key (length (generations s)) (Some startedAt)
  /\ briefCache s1 !! key = None
  /\ enter later userEmail userId s1 = (s1, AwaitsPreferences key).
Proof.
  intros Hvalid Hslow. cbv zeta.
  change 30000 with CACHE_DURATION in Hslow.
  split; [unfold afterPreferences, stampAt; rewrite Hvalid; reflexivity|].
  set (s0 := (afterPreferences isValidZone startedAt userPreferences
                (cacheKey userEmail userId) s).1).
  assert (Hnone : briefCache
                    (afterGeneration done (cacheKey userEmail userId)
                       (Some startedAt) (Resolved content) s0).1
                    !! cacheKey userEmail userId = None).
  { simpl. unfold cleanupCache. apply map_lookup_filter_None. right.
    intros c Hc. rewrite lookup_insert_eq in Hc. injection Hc as <-.
    simpl. apply Z.ltb_lt in Hslow. rewrite Hslow. simpl. tauto. }
  split; [exact Hnone|].
  unfold enter. rewrite Hnone. simpl. rewrite lookup_delete_eq. reflexivity.
Qed.

Lemma slow_generation_is_not_cached_witness :
  let key := cacheKey "alice@example.com" None in
  let started := afterPreferences intlZone 1000 None key initial in
  let s1 :=
    (afterGeneration 41000 key (Some 1000) (Resolved "brief")
       started.1).1 in
  intlZone (userTimezone None) = true
  /\ 30000 < 41000 - 1000
  /\ started.2 = AwaitsGeneration key (length (generations initial))
                   (Some 1000)
  /\ briefCache s1 !! key = None
  /\ enter 41001 "alice@example.com" None s1 = (s1, AwaitsPreferences key).
Proof.
  cbv zeta. split; [reflexivity|]. split; [vm_compute; reflexivity|].
  apply (slow_generation_is_not_cached intlZone "alice@example.com" None
           None 1000 41000 41001 "brief" initial).
  - reflexivity.
  - vm_compute. reflexivity.
Defined.

(** X25: for a user whose zone name the date library does not accept
    the stamp is [NaN].  The brief is cached all the same, however long
    the generation took, and no clean-up ever removes the entry; but no
    call is served from it: the next call for the user, however soon it
    comes, deletes the entry and goes on to generate again. *)
Theorem invalid_zone_defeats_cache (isValidZone : string -> bool)
    (userEmail : string) (userId : option string)
    (userPreferences : option User) (startedAt done later : Z)
    (content : string) (s : State) :
  isValidZone (userTimezone userPreferences) = false ->
  let key := cacheKey userEmail userId in
  let started :=
    afterPreferences isValidZone startedAt userPreferences key s in
  let s1 :=
    (afterGeneration done key None (Resolved content) started.1).1 in
  started.2 = AwaitsGeneration key (length (generations s)) None
  /\ briefCache s1 !! key = Some (mkCached content None)
  /\ (forall t,
        cleanupCache t (briefCache s1) !! key
        = Some (mkCached content None))
  /\ enter later userEmail userId s1
     = (mkState (delete key (briefCache s1)) (inFlight s1)
          (generations s1),
        AwaitsPreferences key).
Proof.
  intros Hinvalid. cbv zeta.
  split; [unfold afterPreferences, stampAt; rewrite Hinvalid; reflexivity|].
  set (s0 := (afterPreferences isValidZone startedAt userPreferences
                (cacheKey userEmail userId) s).1).
  assert (Hkept : briefCache
                    (afterGeneration done (cacheKey userEmail userId)
                       None (Resolved content) s0).1
                    !! cacheKey userEmail userId
                  = Some (mkCached content None))
    by (apply cached_after_generation; reflexivity).
  split; [exact Hkept|]. split.
  - intros t. unfold cleanupCache at 1.
    apply map_lookup_filter_Some. split; [exact Hkept|exact I].
  - unfold enter. rewrite Hkept. simpl. rewrite lookup_delete_eq.
    reflexivity.
Qed.

Lemma invalid_zone_defeats_cache_witness :
  let key := cacheKey "carol@example.com" (Some "U3") in
  let started :=
    afterPreferences intlZone 1000 (Some carol) key initial in
  let s1 :=
    (afterGeneration 12000 key None (Resolved "brief") started.1).1 in
  intlZone (userTimezone (Some carol)) = false
  /\ started.2 = AwaitsGeneration key (length (generations initial)) None
  /\ briefCache s1 !! key = Some (mkCached "brief" None)
  /\ (forall t,
        cleanupCache t (briefCache s1) !! key
        = Some (mkCached "brief" None))
  /\ enter 12001 "carol@example.com" (Some "U3") s1
     = (mkState (delete key (briefCache s1)) (inFlight s1)
          (generations s1),
        AwaitsPreferences key).
Proof.
  cbv zeta. split; [reflexivity|].
  apply (invalid_zone_defeats_cache intlZone "carol@example.com"
           (Some "U3") (Some carol) 1000 12000 12001 "brief" initial).
  reflexivity.
Defined.

End CacheExtras.

(** ** The retry helper around the data-source calls *)

Module RetryExtras.
Import Retry GoogleClient RetryProps.

Lemma totalDelay_tail (baseDelay : Z) (n a : nat) :
  (1 <= a)%nat ->
  totalDelay (tailTrace baseDelay a (a + n))
  = baseDelay * (2 ^ (Z.of_nat (a + n) - 1) - 2 ^ (Z.of_nat a - 1)).
Proof.
  revert a. induction n as [|n IH]; intros a Ha.
  - rewrite Nat.add_0_r, tailTrace_same. simpl. lia.
  - rewrite tailTrace_step by lia. simpl.
    replace (a + S n)%nat with (S a + n)%nat by lia.
    rewrite IH by lia.
    replace (Z.of_nat (S a) - 1) with (Z.succ (Z.of_nat a - 1)) by lia.
    rewrite Z.pow_succ_r by lia. lia.
Qed.

Lemma invocations_tail (baseDelay : Z) (n a : nat) :
  invocations (tailTrace baseDelay a (a + n)) = n.
Proof.
  revert a. induction n as [|n IH]; intros a.
  - rewrite Nat.add_0_r, tailTrace_same. reflexivity.
  - rewrite tailTrace_step by lia. simpl.
    replace (a + S n)%nat with (S a + n)%nat by lia.
    rewrite IH. reflexivity.
Qed.

(** X20: the time the helper sleeps is bounded.  With a maximum of at
    least one attempt it returns, having invoked the operation k times,
    1 <= k <= max, and slept [base * (2^(k-1) - 1)] in all; with a
    non-negative base that is never more than
    [base * (2^(max-1) - 1)], which is 3000 ms for the defaults. *)
Theorem retry_total_delay {A : Type} (operation : nat -> Attempt A)
    (throwOnFailure : bool) (maxRetries : nat) (baseDelay : Z) :
  (1 <= maxRetries)%nat ->
  0 <= baseDelay ->
  exists events out,
    retryOperation operation throwOnFailure maxRetries baseDelay
    = Some (events, out)
    /\ (1 <= invocations events <= maxRetries)%nat
    /\ totalDelay events
       = baseDelay * (2 ^ (Z.of_nat (invocations events) - 1) - 1)
    /\ totalDelay events
       <= baseDelay * (2 ^ (Z.of_nat maxRetries - 1) - 1).
Proof.
  intros Hmax Hbase. unfold retryOperation.
  destruct (retryLoop_runs operation throwOnFailure maxRetries baseDelay
              maxRetries 1) as (k & out & Hrun & Hk & _); [lia|lia|].
  exists (Invoke 1 :: tailTrace baseDelay 1 k), out.
  split; [exact Hrun|].
  assert (Hcount : invocations (Invoke 1 :: tailTrace baseDelay 1 k) = k).
  { simpl. replace k with (1 + (k - 1))%nat at 1 by lia.
    rewrite invocations_tail. lia. }
  rewrite Hcount. split; [exact Hk|].
  assert (Htotal : totalDelay (Invoke 1 :: tailTrace baseDelay 1 k)
                   = baseDelay * (2 ^ (Z.of_nat k - 1) - 1)).
  { simpl totalDelay. replace k with (1 + (k - 1))%nat at 1 by lia.
    rewrite totalDelay_tail by lia.
    replace (1 + (k - 1))%nat with k by lia. simpl. lia. }
  split; [exact Htotal|]. rewrite Htotal.
  apply Z.mul_le_mono_nonneg_l; [exact Hbase|].
  apply Z.sub_le_mono_r, Z.pow_le_mono_r; lia.
Qed.

Lemma retry_total_delay_witness :
  (1 <= DEFAULT_MAX_RETRIES)%nat
  /\ 0 <= DEFAULT_BASE_DELAY
  /\ exists events out,
       retryOperation (fun n => getRecentEmails (alwaysThrows n)) true
         DEFAULT_MAX_RETRIES DEFAULT_BASE_DELAY = Some (events, out)
       /\ (1 <= invocations events <= DEFAULT_MAX_RETRIES)%nat
       /\ totalDelay events
          = DEFAULT_BASE_DELAY
            * (2 ^ (Z.of_nat (invocations events) - 1) - 1)
       /\ totalDelay events
          <= DEFAULT_BASE_DELAY
             * (2 ^ (Z.of_nat DEFAULT_MAX_RETRIES - 1) - 1).
Proof.
  split; [unfold DEFAULT_MAX_RETRIES; lia|].
  split; [unfold DEFAULT_BASE_DELAY; lia|].
  apply (retry_total_delay (fun n => getRecentEmails (alwaysThrows n))
           true DEFAULT_MAX_RETRIES DEFAULT_BASE_DELAY).
  - unfold DEFAULT_MAX_RETRIES; lia.
  - unfold DEFAULT_BASE_DELAY; lia.
Defined.

(** X21: only a thrown request is retried.  When the first request is
    answered, also with [success: false] or without a list, the wrapped
    call is invoked once, nothing is slept, and the helper returns the
    list of the answer, which is empty unless the answer succeeded. *)
Theorem answered_request_is_not_retried {A : Type}
    (outcomes : nat -> HttpOutcome A) (throwOnFailure : bool)
    (maxRetries : nat) (baseDelay : Z) (success : bool)
    (items : option (list A)) :
  (1 <= maxRetries)%nat ->
  outcomes 1%nat = HttpAnswered success items ->
  retryOperation (fun n => getRecentEmails (outcomes n)) throwOnFailure
    maxRetries baseDelay
  = Some ([Invoke 1],
          Returned (if success then default [] items else [])).
Proof.
  intros Hmax Hans. unfold retryOperation.
  destruct maxRetries as [|n]; [lia|]. simpl. rewrite Hans.
  destruct success, items; reflexivity.
Qed.

Lemma answered_request_is_not_retried_witness :
  (1 <= DEFAULT_MAX_RETRIES)%nat
  /\ refused 1%nat = HttpAnswered false None
  /\ retryOperation (fun n => getRecentEmails (refused n)) true
       DEFAULT_MAX_RETRIES DEFAULT_BASE_DELAY
     = Some ([Invoke 1], Returned (if false then default [] None else [])).
Proof.
  split; [unfold DEFAULT_MAX_RETRIES; lia|]. split; [reflexivity|].
  apply (answered_request_is_not_retried refused true DEFAULT_MAX_RETRIES
           DEFAULT_BASE_DELAY false None).
  - unfold DEFAULT_MAX_RETRIES; lia.
  - reflexivity.
Defined.

End RetryExtras.

(** ** The trigger converter: formula, seconds, and when scheduling
       fails *)

Module ConverterExtras.
Import Moment Converter Scheduler ConverterProps.

Section WithZoneData.
Variable getZone : string -> option Zone.

(** X22: for a known zone and a well-formed local time the trigger is
    the local time moved by the offset the library picks for that local
    time on today's date in the zone: minute [(m + o) mod 60], hour
    [((60 h + m + o) / 60) mod 24]. *)
Theorem trigger_is_local_plus_offset (tz : string) (z : Zone)
    (h m now : Z) :
  getZone tz = Some z ->
  0 <= h < 24 -> 0 <= m < 60 ->
  let o :=
    parse z (todayInUserTz getZone tz now * MS_PER_DAY
             + h * MS_PER_HOUR + m * MS_PER_MINUTE) in
  convertToCronTime getZone (hhmm h m) tz now
  = cronText ((m + o) mod 60) (((60 * h + m + o) / 60) mod 24).
Proof.
  intros Hz Hh Hm. cbv zeta. unfold convertToCronTime.
  rewrite (utcTime_known getZone tz z h m now Hz Hh Hm). cbv zeta.
  set (today := todayInUserTz getZone tz now).
  set (o := parse z _).
  unfold cronText, minutes, hours. simpl option_map.
  assert (Hmin : ((today * MS_PER_DAY + h * MS_PER_HOUR + m * MS_PER_MINUTE
                   + o * MS_PER_MINUTE) / MS_PER_MINUTE) mod 60
                 = (m + o) mod 60).
  { unfold MS_PER_DAY, MS_PER_HOUR, MS_PER_MINUTE.
    Z.div_mod_to_equations. lia. }
  assert (Hhour : ((today * MS_PER_DAY + h * MS_PER_HOUR + m * MS_PER_MINUTE
                    + o * MS_PER_MINUTE) / MS_PER_HOUR) mod 24
                  = ((60 * h + m + o) / 60) mod 24).
  { assert (E : (today * MS_PER_DAY + h * MS_PER_HOUR + m * MS_PER_MINUTE
                 + o * MS_PER_MINUTE) / MS_PER_HOUR
                = (60 * h + m + o) / 60 + today * 24).
    { unfold MS_PER_DAY, MS_PER_HOUR, MS_PER_MINUTE.
      Z.div_mod_to_equations. lia. }
    rewrite E. apply Z_mod_plus_full. }
  rewrite Hmin, Hhour. reflexivity.
Qed.

End WithZoneData.

Lemma trigger_is_local_plus_offset_witness :
  let o :=
    parse America_New_York
      (todayInUserTz zoneData "America/New_York" Scenarios.winter2024
       * MS_PER_DAY + 8 * MS_PER_HOUR + 0 * MS_PER_MINUTE) in
  zoneData "America/New_York" = Some America_New_York
  /\ convertToCronTime zoneData (hhmm 8 0) "America/New_York"
       Scenarios.winter2024
     = cronText ((0 + o) mod 60) (((60 * 8 + 0 + o) / 60) mod 24).
Proof.
  cbv zeta. split; [reflexivity|].
  apply (trigger_is_local_plus_offset zoneData "America/New_York"
           America_New_York 8 0 Scenarios.winter2024); [reflexivity|lia|lia].
Defined.

Lemma split_before_separator (sep : ascii) (a s : string) :
  split sep a = [a] ->
  split sep (a +:+ String sep s) = a :: split sep s.
Proof.
  induction a as [|c a IH]; intros Ha.
  - simpl. rewrite Ascii.eqb_refl. reflexivity.
  - simpl in Ha |- *. destruct (Ascii.eqb c sep); [discriminate Ha|].
    destruct (split sep a) as [|h t] eqn:Hsplit.
    + injection Ha as Ha. subst a. discriminate Hsplit.
    + injection Ha as Hh Ht. subst h t. rewrite (IH eq_refl). reflexivity.
Qed.

Lemma split_last (sep : ascii) (a b : string) :
  split sep a = [a] ->
  split sep b = [b] ->
  split sep (a +:+ String sep b) = [a; b].
Proof.
  intros Ha Hb. rewrite (split_before_separator sep a b Ha), Hb.
  reflexivity.
Qed.

(** X23: only the first two fields of the preference are read.  A
    preference with a seconds field, as a [time] column gives it
    ([08:30:45]), or with any other text after a second colon, is
    converted to the same trigger as its [HH:MM] part. *)
Theorem seconds_are_ignored (getZone : string -> option Zone)
    (hoursText minutesText rest tz : string) (now : Z) :
  split ":" hoursText = [hoursText] ->
  split ":" minutesText = [minutesText] ->
  convertToCronTime getZone
    (hoursText +:+ ":" +:+ minutesText +:+ ":" +:+ rest) tz now
  = convertToCronTime getZone (hoursText +:+ ":" +:+ minutesText) tz now.
Proof.
  intros Hh Hm. unfold convertToCronTime, utcTime.
  change (":" +:+ minutesText +:+ ":" +:+ rest)
    with (String ":" (minutesText +:+ String ":" rest)).
  change (":" +:+ minutesText) with (String ":" minutesText).
  rewrite (split_before_separator ":" hoursText _ Hh).
  rewrite (split_before_separator ":" minutesText _ Hm).
  rewrite (split_last ":" hoursText minutesText Hh Hm).
  reflexivity.
Qed.

Lemma seconds_are_ignored_witness :
  split ":" "08" = ["08"]
  /\ split ":" "30" = ["30"]
  /\ convertToCronTime zoneData ("08" +:+ ":" +:+ "30" +:+ ":" +:+ "45")
       "America/New_York" Scenarios.summer2024
     = convertToCronTime zoneData ("08" +:+ ":" +:+ "30")
         "America/New_York" Scenarios.summer2024.
Proof.
  split; [reflexivity|]. split; [reflexivity|].
  apply (seconds_are_ignored zoneData "08" "30" "45" "America/New_York"
           Scenarios.summer2024); reflexivity.
Defined.

(** X24: whether a user's cron job can be created depends on the
    delivery time alone, not on the timezone, the zone table or the
    clock: creation fails exactly when the delivery time is [null] or
    the library cannot read its first two fields as a time of day. *)
Theorem job_creation_fails_iff_time_unreadable
    (getZone : string -> option Zone) (user : User) (now : Z) :
  createUserCronJob getZone user now = None
  <-> match delivery_time user with
      | None => True
      | Some timePreference =>
          let parts := split ":" timePreference in
          parseHHmm (nth 0 parts "undefined" +:+ ":"
                     +:+ nth 1 parts "undefined") = None
      end.
Proof.
  unfold createUserCronJob.
  destruct (delivery_time user) as [timePreference|];
    [|split; [intros _; exact I|reflexivity]].
  cbv zeta.
  rewrite (convertToCronTime_nan getZone timePreference
             (text (timezone user)) now).
  destruct (convertToCronTime_shape getZone timePreference
              (text (timezone user)) now)
    as [Hnan | (hour & minute & Hh & Hm & Hcron)].
  - rewrite Hnan. split; reflexivity.
  - rewrite Hcron, (cronText_valid minute hour Hh Hm).
    split; [discriminate|].
    intros Hnan. pose proof (cronText_valid minute hour Hh Hm) as Hv.
    rewrite Hnan in Hv. vm_compute in Hv. discriminate Hv.
Qed.

End ConverterExtras.
